(** * The OAuth redirect-callback flow of [src/pages/AuthCallbackPage.tsx]

    A shallow embedding of [handleAuth] and of the four provider adapters
    ([handleTwitterAuth], [handleLinkedInAuth], [handleFacebookAuth],
    [handleInstagramAuth]).  Everything the page reads from its surroundings
    (query string, build-time variables, the opener, the clock, the answers of
    the token endpoints, of the credential store and of the account service)
    is a field of one record [Env]; everything the page does to its
    surroundings is an [Effect] appended to a log.  Exceptions are values:
    an [async] function is a computation that returns its log together with
    either the thrown value or its result.  A thrown value may be
    [undefined] or [null], and a parsed body may be [null]: a property read
    on either throws a [TypeError] in its turn. *)

From Stdlib Require Import String Ascii List ZArith Bool Lia.
Import ListNotations.
Local Open Scope string_scope.
Local Open Scope Z_scope.

(** ** The parts of the JavaScript runtime the page relies on *)
Module JS.

(** [if (v)] / [!v] / [v || d] on a value that is a string, [null] or
    [undefined]: only a non-empty string is truthy. *)
Definition truthy (v : option string) : bool :=
  match v with
  | Some s => negb (s =? EmptyString)%string
  | None => false
  end.

(** [v || d] *)
Definition or_else (v : option string) (d : string) : string :=
  match v with
  | Some s => if (s =? EmptyString)%string then d else s
  | None => d
  end.

(** [URLSearchParams.get]: the value of the first pair named [k], or
    [null]. *)
Fixpoint get (k : string) (ps : list (string * string)) : option string :=
  match ps with
  | [] => None
  | (k', v) :: rest => if (k' =? k)%string then Some v else get k rest
  end.

(** A value placed in the record given to [new URLSearchParams({...})] is
    converted to a string; [undefined] becomes the text [undefined]. *)
Definition USVString (v : option string) : string :=
  match v with
  | Some s => s
  | None => "undefined"
  end.

(** A value interpolated in a template literal; [null] becomes the text
    [null]. *)
Definition template (v : option string) : string :=
  match v with
  | Some s => s
  | None => "null"
  end.

(** A value known to be a string once [!v] has been ruled out. *)
Definition narrowed (v : option string) : string :=
  match v with
  | Some s => s
  | None => EmptyString
  end.

(** Decimal digits, for [Date.prototype.toISOString]. *)
Definition digit (d : Z) : string :=
  String (ascii_of_nat (48 + Z.to_nat d)) EmptyString.

Fixpoint pad (width : nat) (z : Z) : string :=
  match width with
  | O => EmptyString
  | S w => pad w (z / 10) ++ digit (z mod 10)
  end.

Definition msPerDay : Z := 86400000.

(** Largest magnitude of a time value ([TimeClip]). *)
Definition maxTime : Z := 8640000000000000.

(** Year, month and day of the proleptic Gregorian calendar for a day
    number counted from 1970-01-01. *)
Definition civil (days : Z) : Z * Z * Z :=
  let z := days + 719468 in
  let era := z / 146097 in
  let doe := z - era * 146097 in
  let yoe := (doe - doe / 1460 + doe / 36524 - doe / 146096) / 365 in
  let doy := doe - (365 * yoe + yoe / 4 - yoe / 100) in
  let mp := (5 * doy + 2) / 153 in
  let d := doy - (153 * mp + 2) / 5 + 1 in
  let m := if mp <? 10 then mp + 3 else mp - 9 in
  let y := yoe + era * 400 + (if m <=? 2 then 1 else 0) in
  (y, m, d).

Definition year_string (y : Z) : string :=
  if (0 <=? y) && (y <=? 9999) then pad 4 y
  else (if y <? 0 then "-" else "+") ++ pad 6 (Z.abs y).

(** [new Date(t).toISOString()] for an integral time value [t] in
    milliseconds; [None] stands for the [RangeError] thrown on an invalid
    date. *)
Definition toISOString (t : Z) : option string :=
  if Z.abs t <=? maxTime then
    let '(y, m, d) := civil (t / msPerDay) in
    let r := t mod msPerDay in
    Some (year_string y ++ "-" ++ pad 2 m ++ "-" ++ pad 2 d ++ "T"
          ++ pad 2 (r / 3600000) ++ ":" ++ pad 2 (r / 60000 mod 60) ++ ":"
          ++ pad 2 (r / 1000 mod 60) ++ "." ++ pad 3 (r mod 1000) ++ "Z")
  else None.

(** The message of the [RangeError] of [toISOString]. *)
Definition invalid_time_message : string := "Invalid time value".

(** The message of the [TypeError] of a property read on [undefined] or
    [null], as V8 words it. *)
Definition cannot_read (value property : string) : string :=
  "Cannot read properties of " ++ value ++ " (reading '" ++ property ++ "')".

End JS.

(** ** Data exchanged with the surroundings *)

(** A thrown value, as far as the page looks at it.  A promise may reject
    with anything: [Error m] is a value that is neither [undefined] nor
    [null], with its [message] property ([None] when it has none);
    on the other two values the read of [message] itself throws. *)
Inductive Exception : Type :=
| Error (message : option string)
| ThrownUndefined
| ThrownNull.

(** The argument of [fetch]: URL, [method], the [Content-Type] header and
    the [URLSearchParams] entries of the body, in the order written. *)
Record Request : Type := mkRequest {
  url : string;
  method : string;
  content_type : string;
  body : list (string * string)
}.

(** The properties the page reads from a parsed response body that is not
    [null]; a property the body lacks is [None].  [expires_in] is the
    number that [tokens.expires_in * 1000] multiplies, taken to be
    integral: [Some z] when the property converts to the number [z] (a
    number, or [null], which converts to 0), [None] when it converts to
    [NaN] (as a missing property does). *)
Record Json : Type := mkJson {
  access_token : option string;
  refresh_token : option string;
  expires_in : option Z;
  error_description : option string
}.

(** A parsed response body: [null], on which every property read throws, or
    any other value. *)
Inductive Parsed : Type :=
| JsonObject (j : Json)
| JsonNull.

(** [await tokenResponse.json()] either yields the parsed body or rejects. *)
Inductive JsonOutcome : Type :=
| JsonValue (v : Parsed)
| JsonRejected (e : Exception).

Record Response : Type := mkResponse {
  ok : bool;
  json : JsonOutcome
}.

(** [await fetch(...)] either yields a response or rejects. *)
Inductive FetchOutcome : Type :=
| FetchResponse (r : Response)
| FetchRejected (e : Exception).

(** The row handed to [upsert]. *)
Record Credential : Type := mkCredential {
  cred_platform : string;
  cred_access_token : option string;
  cred_refresh_token : option string;
  cred_expires_at : string;
  cred_user_id : option string
}.

(** The message posted to the opener. *)
Inductive Message : Type :=
| SOCIAL_AUTH_SUCCESS (platform : string)
| SOCIAL_AUTH_ERROR (error : option string).

(** The function given to [setTimeout] in the [catch] block of
    [handleAuth]; it closes over the caught exception's message. *)
Inductive Callback : Type :=
| PropagateFailure (msg : option string).

Inductive Logged : Type :=
| LoggedException (e : Exception)
| LoggedJson (v : Parsed).

(** What the page does to its surroundings. *)
Inductive Effect : Type :=
| SetStatus (s : string)
| SetError (m : option string)
| ConsoleError (label : string) (detail : Logged)
| Fetch (r : Request)
| GetUser
| Upsert (table : string) (row : Credential)
| ConnectAccount (platform : string)
| PostMessage (m : Message) (targetOrigin : string)
| WindowClose
| Navigate (path : string)
| SetTimeout (cb : Callback) (delay : Z).

(** [import.meta.env]: the build-time variables; [None] when a variable is
    not defined. *)
Record ImportMetaEnv : Type := mkImportMetaEnv {
  VITE_TWITTER_CLIENT_ID : option string;
  VITE_LINKEDIN_CLIENT_ID : option string;
  VITE_LINKEDIN_CLIENT_SECRET : option string;
  VITE_FACEBOOK_APP_ID : option string;
  VITE_FACEBOOK_CLIENT_SECRET : option string;
  VITE_INSTAGRAM_CLIENT_ID : option string;
  VITE_INSTAGRAM_CLIENT_SECRET : option string
}.

(** What the page reads from its surroundings.  Each collaborator is called
    at most once per flow, so its answer is a function of its argument. *)
Record Env : Type := mkEnv {
  (** the query string, as the pairs of [useSearchParams] in order *)
  searchParams : list (string * string);
  (** whether [window.opener] is set *)
  window_opener : bool;
  window_location_origin : string;
  import_meta_env : ImportMetaEnv;
  (** the outcome of [await fetch(...)]: the answer of the token endpoint,
      or a rejection (the network failing, or the runtime refusing the
      request, as browsers do for a GET that carries a body) *)
  fetch : Request -> FetchOutcome;
  (** [Date.now()], in milliseconds; the flow reads the clock once *)
  Date_now : Z;
  (** [(await supabase.auth.getUser()).data.user?.id] *)
  getUser_id : option string;
  (** the [error] property of the result of [upsert]: [true] when set *)
  upsert : Credential -> bool;
  (** [socialMediaService.connectAccount]: [None] when it resolves *)
  connectAccount : string -> option Exception
}.

(** ** Computations that log effects and may throw *)
Module Async.

Definition M (A : Type) : Type := list Effect * (Exception + A).

Definition ret {A} (a : A) : M A := ([], inr a).

Definition throw {A} (e : Exception) : M A := ([], inl e).

Definition bind {A B} (m : M A) (k : A -> M B) : M B :=
  match m with
  | (l, inl e) => (l, inl e)
  | (l, inr a) => let '(l', r) := k a in ((l ++ l')%list, r)
  end.

(** [try { m } catch (e) { h e }] *)
Definition try_catch {A} (m : M A) (h : Exception -> M A) : M A :=
  match m with
  | (l, inl e) => let '(l', r) := h e in ((l ++ l')%list, r)
  | (l, inr a) => (l, inr a)
  end.

Definition emit (e : Effect) : M unit := ([e], inr tt).

Definition log {A} (m : M A) : list Effect := fst m.

Definition result {A} (m : M A) : Exception + A := snd m.

End Async.
Import Async.

Declare Scope async_scope.
Delimit Scope async_scope with async.
Notation "x <- m ;; k" := (bind m (fun x => k))
  (at level 61, m at next level, right associativity) : async_scope.
Notation "m ;; k" := (bind m (fun _ => k))
  (at level 61, right associativity) : async_scope.
Local Open Scope async_scope.

(** [throw new Error(msg)] *)
Definition throw_Error {A} (msg : string) : M A := throw (Error (Some msg)).

(** The [TypeError] the runtime throws; like any error object it has a
    [message]. *)
Definition throw_TypeError {A} (msg : string) : M A :=
  throw (Error (Some msg)).

(** [error.message] on a caught value. *)
Definition read_message (error : Exception) : M (option string) :=
  match error with
  | Error m => ret m
  | ThrownUndefined => throw_TypeError (JS.cannot_read "undefined" "message")
  | ThrownNull => throw_TypeError (JS.cannot_read "null" "message")
  end.

(** [body.name] on a parsed body. *)
Definition read_property {A} (v : Parsed) (name : string) (field : Json -> A)
    : M A :=
  match v with
  | JsonObject j => ret (field j)
  | JsonNull => throw_TypeError (JS.cannot_read "null" name)
  end.

(** ** The page *)
Section Page.

Variable env : Env.

(** [await fetch(...)] *)
Definition await_fetch (r : Request) : M Response :=
  emit (Fetch r) ;;
  match fetch env r with
  | FetchResponse resp => ret resp
  | FetchRejected e => throw e
  end.

(** [await tokenResponse.json()] *)
Definition await_json (resp : Response) : M Parsed :=
  match json resp with
  | JsonValue v => ret v
  | JsonRejected e => throw e
  end.

(** [await socialMediaService.connectAccount(p)] *)
Definition await_connectAccount (p : string) : M unit :=
  emit (ConnectAccount p) ;;
  match connectAccount env p with
  | None => ret tt
  | Some e => throw e
  end.

(** [import.meta.env.NAME] as a value of the record given to
    [new URLSearchParams({...})]. *)
Definition env_var (name : ImportMetaEnv -> option string) : string :=
  JS.USVString (name (import_meta_env env)).

(** [`${window.location.origin}/auth/callback?platform=...`] *)
Definition redirect_uri (p : string) : string :=
  (window_location_origin env ++ "/auth/callback?platform=" ++ p)%string.

Definition form_urlencoded : string := "application/x-www-form-urlencoded".

(** [new Date(Date.now() + tokens.expires_in * 1000).toISOString()];
    an [expires_in] that is not a number makes the sum [NaN], an invalid
    date, on which [toISOString] throws its [RangeError]. *)
Definition expires_at_of (tokens : Parsed) : M string :=
  seconds <- read_property tokens "expires_in" expires_in ;;
  match seconds with
  | Some s =>
      match JS.toISOString (Date_now env + s * 1000) with
      | Some iso => ret iso
      | None => throw_Error JS.invalid_time_message
      end
  | None => throw_Error JS.invalid_time_message
  end.

Definition twitter_request (code : string) : Request :=
  {| url := "https://api.socialsync.fun/twitter/token";
     method := "POST";
     content_type := form_urlencoded;
     body := [ ("code", code);
               ("grant_type", "authorization_code");
               ("redirect_uri", redirect_uri "twitter");
               ("code_verifier", "challenge");
               ("client_id", env_var VITE_TWITTER_CLIENT_ID) ] |}.

(** The [try] block of [handleTwitterAuth]. *)
Definition handleTwitterAuth_try (code : string) : M unit :=
  tokenResponse <- await_fetch (twitter_request code) ;;
  (if negb (ok tokenResponse) then
     errorData <- await_json tokenResponse ;;
     emit (ConsoleError "Twitter token error:" (LoggedJson errorData)) ;;
     description <-
       read_property errorData "error_description" error_description ;;
     throw_Error (JS.or_else description "Failed to get Twitter access token")
   else ret tt) ;;
  tokens <- await_json tokenResponse ;;
  access <- read_property tokens "access_token" access_token ;;
  refresh <- read_property tokens "refresh_token" refresh_token ;;
  expires_at <- expires_at_of tokens ;;
  emit GetUser ;;
  let row := {| cred_platform := "twitter";
                cred_access_token := access;
                cred_refresh_token := refresh;
                cred_expires_at := expires_at;
                cred_user_id := getUser_id env |} in
  emit (Upsert "social_media_accounts" row) ;;
  (if upsert env row then throw_Error "Failed to store Twitter credentials"
   else ret tt) ;;
  await_connectAccount "twitter".

Definition handleTwitterAuth (code : string) : M unit :=
  try_catch (handleTwitterAuth_try code)
    (fun error =>
       emit (ConsoleError "Twitter auth error:" (LoggedException error)) ;;
       msg <- read_message error ;;
       throw_Error (JS.or_else msg "Failed to authenticate with Twitter")).

Definition linkedin_request (code : string) : Request :=
  {| url := "https://www.linkedin.com/oauth/v2/accessToken";
     method := "POST";
     content_type := form_urlencoded;
     body := [ ("grant_type", "authorization_code");
               ("code", code);
               ("client_id", env_var VITE_LINKEDIN_CLIENT_ID);
               ("client_secret", env_var VITE_LINKEDIN_CLIENT_SECRET);
               ("redirect_uri", redirect_uri "linkedin") ] |}.

Definition handleLinkedInAuth (code : string) : M unit :=
  tokenResponse <- await_fetch (linkedin_request code) ;;
  (if negb (ok tokenResponse)
   then throw_Error "Failed to get LinkedIn access token"
   else ret tt) ;;
  tokens <- await_json tokenResponse ;;
  await_connectAccount "linkedin".

Definition facebook_request (code : string) : Request :=
  {| url := "https://graph.facebook.com/v18.0/oauth/access_token";
     method := "GET";
     content_type := form_urlencoded;
     body := [ ("client_id", env_var VITE_FACEBOOK_APP_ID);
               ("redirect_uri", redirect_uri "facebook");
               ("client_secret", env_var VITE_FACEBOOK_CLIENT_SECRET);
               ("code", code) ] |}.

Definition handleFacebookAuth (code : string) : M unit :=
  tokenResponse <- await_fetch (facebook_request code) ;;
  (if negb (ok tokenResponse)
   then throw_Error "Failed to get Facebook access token"
   else ret tt) ;;
  tokens <- await_json tokenResponse ;;
  await_connectAccount "facebook".

Definition instagram_request (code : string) : Request :=
  {| url := "https://api.instagram.com/oauth/access_token";
     method := "POST";
     content_type := form_urlencoded;
     body := [ ("client_id", env_var VITE_INSTAGRAM_CLIENT_ID);
               ("client_secret", env_var VITE_INSTAGRAM_CLIENT_SECRET);
               ("grant_type", "authorization_code");
               ("redirect_uri", redirect_uri "instagram");
               ("code", code) ] |}.

Definition handleInstagramAuth (code : string) : M unit :=
  tokenResponse <- await_fetch (instagram_request code) ;;
  (if negb (ok tokenResponse)
   then throw_Error "Failed to get Instagram access token"
   else ret tt) ;;
  tokens <- await_json tokenResponse ;;
  await_connectAccount "instagram".

(** The [switch (platform)] of [handleAuth]. *)
Definition dispatch (platform code : string) : M unit :=
  if (platform =? "twitter")%string then handleTwitterAuth code
  else if (platform =? "linkedin")%string then handleLinkedInAuth code
  else if (platform =? "facebook")%string then handleFacebookAuth code
  else if (platform =? "instagram")%string then handleInstagramAuth code
  else throw_Error "Unsupported platform".

(** [if (window.opener) { postMessage(m, origin); close() }
     else { navigate('/') }]; none of the three calls throws. *)
Definition propagate (m : Message) : M unit :=
  if window_opener env then
    emit (PostMessage m (window_location_origin env)) ;;
    emit WindowClose
  else emit (Navigate "/").

(** The [try] block of [handleAuth]. *)
Definition handleAuth_try : M unit :=
  let platform := JS.get "platform" (searchParams env) in
  let code := JS.get "code" (searchParams env) in
  let error := JS.get "error" (searchParams env) in
  let state := JS.get "state" (searchParams env) in
  (if JS.truthy error
   then throw_Error ("Authentication failed: " ++ JS.template error)
   else ret tt) ;;
  (if negb (JS.truthy platform) || negb (JS.truthy code)
   then throw_Error "Missing required parameters"
   else ret tt) ;;
  let platform := JS.narrowed platform in
  let code := JS.narrowed code in
  emit (SetStatus ("Connecting " ++ platform ++ " account...")) ;;
  dispatch platform code ;;
  emit (SetStatus "Successfully connected!") ;;
  propagate (SOCIAL_AUTH_SUCCESS platform).

(** The [catch] block of [handleAuth]: [error.message] is read for
    [setError], before anything else is set or scheduled. *)
Definition handleAuth_catch (error : Exception) : M unit :=
  emit (ConsoleError "Auth callback error:" (LoggedException error)) ;;
  msg <- read_message error ;;
  emit (SetError msg) ;;
  emit (SetStatus "Authentication failed") ;;
  emit (SetTimeout (PropagateFailure msg) 3000).

Definition handleAuth : M unit :=
  try_catch handleAuth_try handleAuth_catch.

(** The body of the function given to [setTimeout]. *)
Definition run_callback (cb : Callback) : M unit :=
  match cb with
  | PropagateFailure msg => propagate (SOCIAL_AUTH_ERROR msg)
  end.

End Page.

(** ** Observing a flow *)

(** How the flow ended: the [try] block of [handleAuth] ran to its end; or
    a value with the given [message] reached its [catch] block, which
    handled it; or [undefined] or [null] reached the [catch] block, which
    threw in its turn at [error.message] and reported nothing. *)
Inductive Outcome : Type :=
| Succeeded
| Failed (msg : option string)
| Unreported (thrown : Exception).

(** How a flow ends on the value its [try] block threw. *)
Definition caught (e : Exception) : Outcome :=
  match e with
  | Error m => Failed m
  | ThrownUndefined | ThrownNull => Unreported e
  end.

Definition outcome (env : Env) : Outcome :=
  match result (handleAuth_try env) with
  | inr _ => Succeeded
  | inl e => caught e
  end.

(** The timers registered by a log. *)
Fixpoint timers (l : list Effect) : list (Callback * Z) :=
  match l with
  | [] => []
  | SetTimeout cb delay :: rest => (cb, delay) :: timers rest
  | _ :: rest => timers rest
  end.

(** Every effect of a flow with the timer delay after which it runs: [0]
    for the effects of [handleAuth] itself, the registered delay for those
    of a timer's function. *)
Definition timeline (env : Env) : list (Z * Effect) :=
  let l := log (handleAuth env) in
  (map (pair 0) l
   ++ flat_map (fun t => map (pair (snd t)) (log (run_callback env (fst t))))
        (timers l))%list.

Definition effects (env : Env) : list Effect := map snd (timeline env).

(** Classes of effects. *)
Definition is_fetch (e : Effect) : bool :=
  match e with Fetch _ => true | _ => false end.

Definition is_upsert (e : Effect) : bool :=
  match e with Upsert _ _ => true | _ => false end.

Definition is_connectAccount (e : Effect) : bool :=
  match e with ConnectAccount _ => true | _ => false end.

(** Calls that leave the page: token endpoint, credential store, account
    service. *)
Definition is_network (e : Effect) : bool :=
  match e with
  | Fetch _ | GetUser | Upsert _ _ | ConnectAccount _ => true
  | _ => false
  end.

(** Calls to the collaborators behind the page (store and account service),
    as opposed to the provider in front of it. *)
Definition is_downstream (e : Effect) : bool :=
  match e with
  | GetUser | Upsert _ _ | ConnectAccount _ => true
  | _ => false
  end.



(** What an adapter may do. *)
Definition is_adapter_effect (e : Effect) : bool :=
  match e with
  | ConsoleError _ _ | Fetch _ | GetUser | Upsert _ _ | ConnectAccount _ => true
  | _ => false
  end.

(** The platforms of the [switch] and the request each adapter sends. *)
Definition supported (p : string) : bool :=
  (p =? "twitter")%string || (p =? "linkedin")%string
  || (p =? "facebook")%string || (p =? "instagram")%string.

Definition exchange_request (env : Env) (p code : string) : option Request :=
  if (p =? "twitter")%string then Some (twitter_request env code)
  else if (p =? "linkedin")%string then Some (linkedin_request env code)
  else if (p =? "facebook")%string then Some (facebook_request env code)
  else if (p =? "instagram")%string then Some (instagram_request env code)
  else None.

(** The exchange succeeds: the token endpoint answers the adapter's request
    with a success status and a body that parses. *)
Definition exchange_tokens (env : Env) (p code : string) : option Parsed :=
  match exchange_request env p code with
  | Some r =>
      match fetch env r with
      | FetchResponse resp =>
          if ok resp then
            match json resp with
            | JsonValue v => Some v
            | JsonRejected _ => None
            end
          else None
      | FetchRejected _ => None
      end
  | None => None
  end.

(** The flow gets as far as the [switch]: no truthy [error], and both
    [platform] and [code] truthy. *)
Definition dispatches (env : Env) (p code : string) : Prop :=
  JS.truthy (JS.get "error" (searchParams env)) = false
  /\ JS.get "platform" (searchParams env) = Some p
  /\ JS.get "code" (searchParams env) = Some code
  /\ p <> EmptyString /\ code <> EmptyString.

(** What the [catch] block of [handleAuth] does with the value it caught:
    on [undefined] and [null] nothing after the console line. *)
Definition failure_log (e : Exception) : list Effect :=
  ConsoleError "Auth callback error:" (LoggedException e)
  :: match e with
     | Error m =>
         [ SetError m;
           SetStatus "Authentication failed";
           SetTimeout (PropagateFailure m) 3000 ]
     | ThrownUndefined | ThrownNull => []
     end.

(** The credential was stored: an upsert was made and reported no error. *)
Definition stored (env : Env) : Prop :=
  exists row,
    In (Upsert "social_media_accounts" row) (effects env)
    /\ upsert env row = false.


(** The variables each adapter reads. *)
Definition client_id (cfg : ImportMetaEnv) (p : string) : option string :=
  if (p =? "twitter")%string then VITE_TWITTER_CLIENT_ID cfg
  else if (p =? "linkedin")%string then VITE_LINKEDIN_CLIENT_ID cfg
  else if (p =? "facebook")%string then VITE_FACEBOOK_APP_ID cfg
  else VITE_INSTAGRAM_CLIENT_ID cfg.

Definition client_secret (cfg : ImportMetaEnv) (p : string) : option string :=
  if (p =? "linkedin")%string then VITE_LINKEDIN_CLIENT_SECRET cfg
  else if (p =? "facebook")%string then VITE_FACEBOOK_CLIENT_SECRET cfg
  else VITE_INSTAGRAM_CLIENT_SECRET cfg.

(** Record updates. *)
Definition with_searchParams (ps : list (string * string)) (env : Env) : Env :=
  {| searchParams := ps;
     window_opener := window_opener env;
     window_location_origin := window_location_origin env;
     import_meta_env := import_meta_env env;
     fetch := fetch env;
     Date_now := Date_now env;
     getUser_id := getUser_id env;
     upsert := upsert env;
     connectAccount := connectAccount env |}.


(** ** The component's state and what it renders *)

(** The two [useState] cells of [AuthCallbackPage]. *)
Record PageState : Type := mkPageState {
  state_status : string;
  state_error : option string
}.

(** [useState('Verifying authentication...')] and [useState(null)]. *)
Definition initial_state : PageState :=
  {| state_status := "Verifying authentication...";
     state_error := None |}.

(** [setStatus] and [setError] write their cell; no other effect touches
    the state. *)
Definition set_state (st : PageState) (e : Effect) : PageState :=
  match e with
  | SetStatus s => {| state_status := s; state_error := state_error st |}
  | SetError m => {| state_status := state_status st; state_error := m |}
  | _ => st
  end.

Definition state_after (l : list Effect) : PageState :=
  fold_left set_state l initial_state.

(** The successive arguments of [setStatus]. *)
Fixpoint statuses (l : list Effect) : list string :=
  match l with
  | [] => []
  | SetStatus s :: rest => s :: statuses rest
  | _ :: rest => statuses rest
  end.


(** The element tree the component returns. *)
#[local] Set Warnings "-register-all".
Inductive Node : Type :=
| Element (tag className : string) (children : list Node)
| TextNode (text : string).

Definition status_heading (st : PageState) : Node :=
  Element "h2" "text-xl font-semibold text-gray-900 mb-2"
    [TextNode (state_status st)].

(** The [return (...)] of [AuthCallbackPage]: [error ? (...) : (<>...</>)]
    inside the two [div]s; the children of the fragment are children of the
    inner [div]. *)
Definition render (st : PageState) : Node :=
  Element "div"
    "min-h-screen bg-gray-50 flex flex-col items-center justify-center p-4"
    [ Element "div"
        "bg-white rounded-lg shadow-sm p-8 max-w-md w-full text-center"
        (if JS.truthy (state_error st) then
           [ Element "div" "flex flex-col items-center gap-4"
               [ Element "AlertCircle" "w-8 h-8 text-red-500" [];
                 status_heading st;
                 Element "p" "text-red-600"
                   [TextNode (JS.narrowed (state_error st))] ] ]
         else
           [ Element "Loader2"
               "w-8 h-8 text-blue-500 animate-spin mx-auto mb-4" [];
             status_heading st;
             Element "p" "text-gray-600"
               [TextNode
                  "Please wait while we complete the authentication process..."]
           ]) ].

(** The texts of a tree, in document order. *)
Fixpoint texts (n : Node) : list string :=
  match n with
  | TextNode s => [s]
  | Element _ _ children => flat_map texts children
  end.

(** The tags of a tree, in document order. *)
Fixpoint tags (n : Node) : list string :=
  match n with
  | TextNode _ => []
  | Element tag _ children => tag :: flat_map tags children
  end.

(** The flow gets past both checks of [handleAuth], as a test. *)
Definition reaches_switch (env : Env) : bool :=
  negb (JS.truthy (JS.get "error" (searchParams env)))
  && JS.truthy (JS.get "platform" (searchParams env))
  && JS.truthy (JS.get "code" (searchParams env)).

(** The text of the loading view. *)
Definition please_wait : string :=
  "Please wait while we complete the authentication process...".

(** The message of the error [handleTwitterAuth] throws from its [catch]
    block, by the value it caught: [error.message || '...'], or the
    [TypeError] of that read. *)
Definition twitter_rethrown (e : Exception) : string :=
  match e with
  | Error m => JS.or_else m "Failed to authenticate with Twitter"
  | ThrownUndefined => JS.cannot_read "undefined" "message"
  | ThrownNull => JS.cannot_read "null" "message"
  end.

(** The message the three adapters without a proxy throw on a response
    that is not [ok]. *)
Definition token_failure_message (p : string) : string :=
  if (p =? "linkedin")%string then "Failed to get LinkedIn access token"
  else if (p =? "facebook")%string then "Failed to get Facebook access token"
  else "Failed to get Instagram access token".

(** Other clock, user and credential store. *)
Definition with_persistence (now : Z) (u : option string)
    (store : Credential -> bool) (env : Env) : Env :=
  {| searchParams := searchParams env;
     window_opener := window_opener env;
     window_location_origin := window_location_origin env;
     import_meta_env := import_meta_env env;
     fetch := fetch env;
     Date_now := now;
     getUser_id := u;
     upsert := store;
     connectAccount := connectAccount env |}.

(** ** Sample surroundings *)
Module Sample.

Definition token_object : Json :=
  {| access_token := Some "at-1";
     refresh_token := Some "rt-1";
     expires_in := Some 3600;
     error_description := None |}.

Definition tokens : Parsed := JsonObject token_object.

Definition granted (_ : Request) : FetchOutcome :=
  FetchResponse {| ok := true; json := JsonValue tokens |}.

Definition refused (_ : Request) : FetchOutcome :=
  FetchResponse
    {| ok := false;
       json := JsonValue
                 (JsonObject
                    {| access_token := None;
                       refresh_token := None;
                       expires_in := None;
                       error_description := Some "invalid_grant" |}) |}.

Definition config : ImportMetaEnv :=
  {| VITE_TWITTER_CLIENT_ID := Some "tw-id";
     VITE_LINKEDIN_CLIENT_ID := Some "li-id";
     VITE_LINKEDIN_CLIENT_SECRET := Some "li-secret";
     VITE_FACEBOOK_APP_ID := Some "fb-id";
     VITE_FACEBOOK_CLIENT_SECRET := Some "fb-secret";
     VITE_INSTAGRAM_CLIENT_ID := Some "ig-id";
     VITE_INSTAGRAM_CLIENT_SECRET := Some "ig-secret" |}.

(** A page at [https://app.example] with every build-time variable set,
    a signed-in user, a store and an account service that accept. *)
Definition page (ps : list (string * string)) (opener : bool)
    (endpoint : Request -> FetchOutcome) : Env :=
  {| searchParams := ps;
     window_opener := opener;
     window_location_origin := "https://app.example";
     import_meta_env := config;
     fetch := endpoint;
     Date_now := 1700000000000;
     getUser_id := Some "user-1";
     upsert := fun _ => false;
     connectAccount := fun _ => None |}.

Definition twitter_popup : Env :=
  page [("platform", "twitter"); ("code", "abc"); ("state", "xyz")]
    true granted.

Definition linkedin_page : Env :=
  page [("platform", "linkedin"); ("code", "abc")] false granted.

Definition denied_popup : Env :=
  page [("error", "access_denied"); ("platform", "twitter")] true granted.

Definition tiktok_page : Env :=
  page [("platform", "tiktok"); ("code", "abc")] false granted.

End Sample.

(** ** The inputs the claims are tried on *)

Module C1_input.
(** [?error=&platform=twitter&code=abc]: an [error] parameter whose value
    is the empty string. *)
Definition empty_error : Env :=
  Sample.page [("error", EmptyString); ("platform", "twitter"); ("code", "abc")]
    false Sample.granted.
End C1_input.

Module C8_input.
(** [?platform=twitter]: no [code]. *)
Definition no_code : Env :=
  Sample.page [("platform", "twitter")] true Sample.granted.
End C8_input.

Module C9_input.
Definition instagram_popup : Env :=
  Sample.page [("platform", "instagram"); ("code", "abc")] true
    Sample.granted.
End C9_input.

Module C2_input.
(** A twitter redirect answered with tokens, and a credential store that
    reports an error. *)
Definition store_refuses : Env :=
  let e := Sample.page [("platform", "twitter"); ("code", "abc")] false
             Sample.granted in
  {| searchParams := searchParams e;
     window_opener := window_opener e;
     window_location_origin := window_location_origin e;
     import_meta_env := import_meta_env e;
     fetch := fetch e;
     Date_now := Date_now e;
     getUser_id := getUser_id e;
     upsert := fun _ => true;
     connectAccount := connectAccount e |}.
End C2_input.

Module C5_input.
End C5_input.

Module C6_input.
(** A linkedin redirect on a build without [VITE_LINKEDIN_CLIENT_ID] and
    [VITE_LINKEDIN_CLIENT_SECRET]. *)
Definition unconfigured : Env :=
  {| searchParams := [("platform", "linkedin"); ("code", "abc")];
     window_opener := false;
     window_location_origin := "https://app.example";
     import_meta_env :=
       {| VITE_TWITTER_CLIENT_ID := Some "tw-id";
          VITE_LINKEDIN_CLIENT_ID := None;
          VITE_LINKEDIN_CLIENT_SECRET := None;
          VITE_FACEBOOK_APP_ID := Some "fb-id";
          VITE_FACEBOOK_CLIENT_SECRET := Some "fb-secret";
          VITE_INSTAGRAM_CLIENT_ID := Some "ig-id";
          VITE_INSTAGRAM_CLIENT_SECRET := Some "ig-secret" |};
     fetch := Sample.granted;
     Date_now := 1700000000000;
     getUser_id := Some "user-1";
     upsert := fun _ => false;
     connectAccount := fun _ => None |}.
End C6_input.

Module C10_input.
Definition with_state_xyz : list (string * string) :=
  [("platform", "twitter"); ("code", "abc"); ("state", "xyz")].
Definition with_other_state : list (string * string) :=
  [("state", "forged"); ("platform", "twitter"); ("code", "abc")].
End C10_input.

Module More_input.

(** A page at [https://app.example], fully configured, with a signed-in
    user and a store that accepts. *)
Definition page (ps : list (string * string)) (opener : bool)
    (endpoint : Request -> FetchOutcome)
    (service : string -> option Exception) : Env :=
  {| searchParams := ps;
     window_opener := opener;
     window_location_origin := "https://app.example";
     import_meta_env := Sample.config;
     fetch := endpoint;
     Date_now := 1700000000000;
     getUser_id := Some "user-1";
     upsert := fun _ => false;
     connectAccount := service |}.

Definition accepts (_ : string) : option Exception := None.

Definition linkedin_refused : Env :=
  page [("platform", "linkedin"); ("code", "abc")] false Sample.refused
    accepts.

Definition twitter_refused : Env :=
  page [("platform", "twitter"); ("code", "abc")] true Sample.refused
    accepts.

(** The proxy refuses with the body [null]. *)
Definition twitter_refused_null : Env :=
  page [("platform", "twitter"); ("code", "abc")] true
    (fun _ => FetchResponse {| ok := false; json := JsonValue JsonNull |})
    accepts.

(** The proxy grants with the body [null]. *)
Definition twitter_granted_null : Env :=
  page [("platform", "twitter"); ("code", "abc")] false
    (fun _ => FetchResponse {| ok := true; json := JsonValue JsonNull |})
    accepts.

(** The account service rejects with [undefined]. *)
Definition twitter_rejects_with_undefined : Env :=
  page [("platform", "twitter"); ("code", "abc")] false Sample.granted
    (fun _ => Some ThrownUndefined).

(** [fetch] rejects with a value that has no [message]. *)
Definition twitter_offline : Env :=
  page [("platform", "twitter"); ("code", "abc")] true
    (fun _ => FetchRejected (Error None)) accepts.

Definition facebook_offline : Env :=
  page [("platform", "facebook"); ("code", "abc")] true
    (fun _ => FetchRejected (Error None)) accepts.

Definition parse_error : Exception :=
  Error (Some "Unexpected token < in JSON at position 0").

(** A success status with a body that is not JSON. *)
Definition instagram_garbled : Env :=
  page [("platform", "instagram"); ("code", "abc")] false
    (fun _ => FetchResponse {| ok := true; json := JsonRejected parse_error |})
    accepts.

(** Tokens without [expires_in]. *)
Definition twitter_no_expiry : Env :=
  page [("platform", "twitter"); ("code", "abc")] false
    (fun _ =>
       FetchResponse
         {| ok := true;
            json := JsonValue
                      (JsonObject
                         {| access_token := Some "at-1";
                            refresh_token := None;
                            expires_in := None;
                            error_description := None |}) |})
    accepts.

(** The account service rejects. *)
Definition twitter_service_down : Env :=
  page [("platform", "twitter"); ("code", "abc")] false Sample.granted
    (fun _ => Some (Error (Some "service unavailable"))).

(** Two query strings with the same first [platform] and [code]. *)
Definition plain : list (string * string) :=
  [("platform", "twitter"); ("code", "abc")].

Definition cluttered : list (string * string) :=
  [ ("utm_source", "mail"); ("code", "abc"); ("platform", "twitter");
    ("platform", "linkedin"); ("code", "zzz"); ("state", "xyz") ].

End More_input.

Module C3_input.
End C3_input.

Module C4_input.
End C4_input.

(** ** Runs on the samples *)

Example toISOString_epoch :
  JS.toISOString 0 = Some "1970-01-01T00:00:00.000Z".
Proof. reflexivity. Qed.

Example toISOString_2023 :
  JS.toISOString 1700000000000 = Some "2023-11-14T22:13:20.000Z".
Proof. vm_compute. reflexivity. Qed.

Example toISOString_leap :
  JS.toISOString 1709210096789 = Some "2024-02-29T12:34:56.789Z".
Proof. vm_compute. reflexivity. Qed.

Example toISOString_before_epoch :
  JS.toISOString (-1) = Some "1969-12-31T23:59:59.999Z".
Proof. vm_compute. reflexivity. Qed.

Example toISOString_out_of_range :
  JS.toISOString (JS.maxTime + 1) = None.
Proof. reflexivity. Qed.

Example cannot_read_message :
  JS.cannot_read "undefined" "message" =
  "Cannot read properties of undefined (reading 'message')"%string.
Proof. reflexivity. Qed.

Example twitter_popup_timeline :
  timeline Sample.twitter_popup =
  [ (0, SetStatus "Connecting twitter account...");
    (0, Fetch {| url := "https://api.socialsync.fun/twitter/token";
                 method := "POST";
                 content_type := "application/x-www-form-urlencoded";
                 body := [ ("code", "abc");
                           ("grant_type", "authorization_code");
                           ("redirect_uri",
                            "https://app.example/auth/callback?platform=twitter");
                           ("code_verifier", "challenge");
                           ("client_id", "tw-id") ] |});
    (0, GetUser);
    (0, Upsert "social_media_accounts"
          {| cred_platform := "twitter";
             cred_access_token := Some "at-1";
             cred_refresh_token := Some "rt-1";
             cred_expires_at := "2023-11-14T23:13:20.000Z";
             cred_user_id := Some "user-1" |});
    (0, ConnectAccount "twitter");
    (0, SetStatus "Successfully connected!");
    (0, PostMessage (SOCIAL_AUTH_SUCCESS "twitter") "https://app.example");
    (0, WindowClose) ].
Proof. vm_compute. reflexivity. Qed.

Example linkedin_page_timeline :
  timeline Sample.linkedin_page =
  [ (0, SetStatus "Connecting linkedin account...");
    (0, Fetch (linkedin_request Sample.linkedin_page "abc"));
    (0, ConnectAccount "linkedin");
    (0, SetStatus "Successfully connected!");
    (0, Navigate "/") ].
Proof. vm_compute. reflexivity. Qed.

Example denied_popup_timeline :
  timeline Sample.denied_popup =
  [ (0, ConsoleError "Auth callback error:"
          (LoggedException
             (Error (Some "Authentication failed: access_denied"))));
    (0, SetError (Some "Authentication failed: access_denied"));
    (0, SetStatus "Authentication failed");
    (0, SetTimeout
          (PropagateFailure (Some "Authentication failed: access_denied"))
          3000);
    (3000, PostMessage
             (SOCIAL_AUTH_ERROR (Some "Authentication failed: access_denied"))
             "https://app.example");
    (3000, WindowClose) ].
Proof. vm_compute. reflexivity. Qed.

Example tiktok_page_outcome :
  outcome Sample.tiktok_page = Failed (Some "Unsupported platform")
  /\ filter is_network (effects Sample.tiktok_page) = [].
Proof. vm_compute. split; reflexivity. Qed.

(** ** Lemmas on the monad and on the shape of a flow *)

Lemma truthy_Some (s : string) : s <> EmptyString -> JS.truthy (Some s) = true.
Proof.
  intros H. unfold JS.truthy.
  destruct (String.eqb_spec s EmptyString); [contradiction | reflexivity].
Qed.

Lemma truthy_inv (v : option string) :
  JS.truthy v = true -> exists s, v = Some s /\ s <> EmptyString.
Proof.
  destruct v as [s|]; simpl; [|discriminate].
  destruct (String.eqb_spec s EmptyString); [discriminate|].
  intros _. now exists s.
Qed.

Lemma bind_ret_l {A B} (a : A) (k : A -> M B) : bind (ret a) k = k a.
Proof. unfold bind, ret. destruct (k a). reflexivity. Qed.

Lemma log_bind {A B} (m : M A) (k : A -> M B) :
  log (bind m k) =
  match result m with
  | inl _ => log m
  | inr a => (log m ++ log (k a))%list
  end.
Proof.
  destruct m as [l [e|a]]; simpl; [reflexivity|].
  destruct (k a); reflexivity.
Qed.

Lemma result_bind {A B} (m : M A) (k : A -> M B) :
  result (bind m k) =
  match result m with
  | inl e => inl e
  | inr a => result (k a)
  end.
Proof.
  destruct m as [l [e|a]]; simpl; [reflexivity|].
  destruct (k a); reflexivity.
Qed.

Lemma log_try_catch {A} (m : M A) (h : Exception -> M A) :
  log (try_catch m h) =
  match result m with
  | inl e => (log m ++ log (h e))%list
  | inr _ => log m
  end.
Proof.
  destruct m as [l [e|a]]; simpl; [|reflexivity].
  destruct (h e); reflexivity.
Qed.

(** Case analysis on every answer an adapter asks its surroundings for. *)
Ltac ask_surroundings :=
  repeat match goal with
  | |- context [match fetch ?e ?r with _ => _ end] =>
      destruct (fetch e r) as [[[] [[?|]|?]]|?] eqn:?
  | |- context [match expires_in ?j with _ => _ end] =>
      destruct (expires_in j) eqn:?
  | |- context [match JS.toISOString ?t with _ => _ end] =>
      destruct (JS.toISOString t) eqn:?
  | |- context [if upsert ?e ?r then _ else _] =>
      destruct (upsert e r) eqn:?
  | |- context [match connectAccount ?e ?p with _ => _ end] =>
      destruct (connectAccount e p) eqn:?
  | |- context [if window_opener ?e then _ else _] =>
      destruct (window_opener e) eqn:?
  | |- context [read_message ?e] => is_var e; destruct e
  | _ => progress cbn
  end.

Ltac unfold_adapters :=
  unfold handleTwitterAuth, handleTwitterAuth_try, handleLinkedInAuth,
    handleFacebookAuth, handleInstagramAuth, await_fetch, await_json,
    await_connectAccount, expires_at_of, throw_Error.

(** An adapter only logs to the console and calls the network. *)
Lemma dispatch_effects (env : Env) (p code : string) :
  Forall (fun e => is_adapter_effect e = true) (log (dispatch env p code)).
Proof.
  unfold dispatch.
  destruct (p =? "twitter")%string;
    [|destruct (p =? "linkedin")%string;
      [|destruct (p =? "facebook")%string;
        [|destruct (p =? "instagram")%string]]];
    unfold_adapters; ask_surroundings; repeat constructor.
Qed.

Lemma propagate_result (env : Env) (m : Message) :
  result (propagate env m) = inr tt.
Proof. unfold propagate. destruct (window_opener env); reflexivity. Qed.

(** Once the flow reaches the [switch], the [try] block is the status
    update, the adapter, and the success propagation. *)
Lemma handleAuth_try_dispatched (env : Env) (p code : string) :
  dispatches env p code ->
  handleAuth_try env =
  (emit (SetStatus ("Connecting " ++ p ++ " account...")) ;;
   dispatch env p code ;;
   emit (SetStatus "Successfully connected!") ;;
   propagate env (SOCIAL_AUTH_SUCCESS p)).
Proof.
  intros (He & Hp & Hc & Hp' & Hc').
  unfold handleAuth_try. rewrite He, Hp, Hc.
  rewrite (truthy_Some p Hp'), (truthy_Some code Hc').
  cbn [negb orb JS.narrowed].
  now rewrite !bind_ret_l.
Qed.

Lemma log_handleAuth (env : Env) :
  log (handleAuth env) =
  match result (handleAuth_try env) with
  | inl e => (log (handleAuth_try env) ++ failure_log e)%list
  | inr _ => log (handleAuth_try env)
  end.
Proof.
  unfold handleAuth. rewrite log_try_catch.
  destruct (result (handleAuth_try env)) as [[m| |]|]; reflexivity.
Qed.

(** The two ways a flow fails before the [switch]. *)
Lemma handleAuth_try_error (env : Env) (e : string) :
  JS.get "error" (searchParams env) = Some e -> e <> EmptyString ->
  handleAuth_try env =
  ([], inl (Error (Some ("Authentication failed: " ++ e)))).
Proof.
  intros He Hne. unfold handleAuth_try. rewrite He, (truthy_Some e Hne).
  reflexivity.
Qed.

Lemma handleAuth_try_missing (env : Env) :
  JS.truthy (JS.get "error" (searchParams env)) = false ->
  JS.truthy (JS.get "platform" (searchParams env)) = false
  \/ JS.truthy (JS.get "code" (searchParams env)) = false ->
  handleAuth_try env = ([], inl (Error (Some "Missing required parameters"))).
Proof.
  intros He H. unfold handleAuth_try. rewrite He.
  destruct H as [H|H]; rewrite H; [|rewrite orb_true_r]; reflexivity.
Qed.

(** Every flow either fails before the [switch] or reaches it. *)
Lemma handleAuth_try_cases (env : Env) :
  (exists msg, handleAuth_try env = ([], inl (Error (Some msg))))
  \/ (exists p code, dispatches env p code).
Proof.
  destruct (JS.truthy (JS.get "error" (searchParams env))) eqn:He.
  - apply truthy_inv in He as (e & He & Hne). left.
    exists ("Authentication failed: " ++ e)%string.
    now apply handleAuth_try_error.
  - destruct (JS.truthy (JS.get "platform" (searchParams env))) eqn:Hp.
    + destruct (JS.truthy (JS.get "code" (searchParams env))) eqn:Hc.
      * apply truthy_inv in Hp as (p & Hp & Hp').
        apply truthy_inv in Hc as (c & Hc & Hc').
        right. exists p, c. repeat split; assumption.
      * left. eexists. apply handleAuth_try_missing; auto.
    + left. eexists. apply handleAuth_try_missing; auto.
Qed.

Lemma timers_app (l1 l2 : list Effect) :
  timers (l1 ++ l2) = (timers l1 ++ timers l2)%list.
Proof.
  induction l1 as [|e l1 IH]; [reflexivity|].
  destruct e; simpl; rewrite IH; reflexivity.
Qed.

Lemma timers_adapter (l : list Effect) :
  Forall (fun e => is_adapter_effect e = true) l -> timers l = [].
Proof.
  induction 1 as [|e l He _ IH]; [reflexivity|].
  destruct e; try discriminate; assumption.
Qed.

Lemma timers_propagate (env : Env) (m : Message) :
  timers (log (propagate env m)) = [].
Proof. unfold propagate. destruct (window_opener env); reflexivity. Qed.


(** The log of a flow that reached the [switch], by the adapter's result. *)
Lemma handleAuth_dispatched (env : Env) (p code : string) :
  dispatches env p code ->
  match result (dispatch env p code) with
  | inr _ =>
      outcome env = Succeeded
      /\ log (handleAuth env) =
         (SetStatus ("Connecting " ++ p ++ " account...")
          :: log (dispatch env p code)
          ++ SetStatus "Successfully connected!"
          :: log (propagate env (SOCIAL_AUTH_SUCCESS p)))%list
  | inl e =>
      outcome env = caught e
      /\ log (handleAuth env) =
         (SetStatus ("Connecting " ++ p ++ " account...")
          :: log (dispatch env p code) ++ failure_log e)%list
  end.
Proof.
  intros H. unfold outcome. rewrite log_handleAuth.
  rewrite (handleAuth_try_dispatched env p code H).
  destruct (dispatch env p code) as [l [e|[]]]; cbn.
  - split; reflexivity.
  - destruct (propagate env (SOCIAL_AUTH_SUCCESS p)) as [l' r] eqn:Hpr.
    pose proof (propagate_result env (SOCIAL_AUTH_SUCCESS p)) as Hr.
    rewrite Hpr in Hr. cbn in Hr. subst r. cbn. split; reflexivity.
Qed.


(** The effects of a flow, without their delays. *)
Lemma effects_eq (env : Env) :
  effects env =
  (log (handleAuth env)
   ++ flat_map (fun t => log (run_callback env (fst t)))
        (timers (log (handleAuth env))))%list.
Proof.
  unfold effects, timeline. rewrite map_app, map_map. cbn [snd].
  rewrite map_id. f_equal.
  induction (timers (log (handleAuth env))) as [|t ts IH]; [reflexivity|].
  cbn [flat_map]. rewrite map_app, map_map, IH. cbn [snd].
  now rewrite map_id.
Qed.

Lemma propagate_not_network (env : Env) (m : Message) :
  Forall (fun e => is_network e = false) (log (propagate env m)).
Proof.
  unfold propagate. destruct (window_opener env); repeat constructor.
Qed.

(** A flow that reached the [switch]: the status update, the adapter's
    effects, and effects that stay inside the browser. *)
Lemma effects_dispatched (env : Env) (p code : string) :
  dispatches env p code ->
  exists tail,
    effects env =
    (SetStatus ("Connecting " ++ p ++ " account...")
     :: log (dispatch env p code) ++ tail)%list
    /\ Forall (fun e => is_network e = false) tail.
Proof.
  intros H. pose proof (dispatch_effects env p code) as Had.
  pose proof (handleAuth_dispatched env p code H) as Hd.
  rewrite effects_eq.
  destruct (result (dispatch env p code)) as [e|u]; destruct Hd as [_ Hl];
    rewrite Hl; cbn [timers]; rewrite timers_app, (timers_adapter _ Had).
  - exists (failure_log e
            ++ flat_map (fun t => log (run_callback env (fst t)))
                 (timers (failure_log e)))%list.
    split.
    + cbn [app flat_map]. now rewrite <- app_assoc.
    + apply Forall_app. split; [destruct e; repeat constructor|].
      destruct e; cbn; rewrite ?app_nil_r;
        (apply propagate_not_network || constructor).
  - exists (SetStatus "Successfully connected!"
            :: log (propagate env (SOCIAL_AUTH_SUCCESS p))).
    split.
    + cbn [timers app]. rewrite timers_propagate. cbn [flat_map].
      now rewrite app_nil_r.
    + constructor; [reflexivity|]. apply propagate_not_network.
Qed.

(** A flow that failed before the [switch]. *)
Lemma effects_undispatched (env : Env) (msg : string) :
  handleAuth_try env = ([], inl (Error (Some msg))) ->
  effects env =
  (failure_log (Error (Some msg))
   ++ log (propagate env (SOCIAL_AUTH_ERROR (Some msg))))%list.
Proof.
  intros H. rewrite effects_eq, log_handleAuth, H. cbn.
  now rewrite app_nil_r.
Qed.

Lemma filter_none {A} (f g : A -> bool) (l : list A) :
  (forall a, f a = true -> g a = true) ->
  Forall (fun a => g a = false) l -> filter f l = [].
Proof.
  intros Hfg. induction 1 as [|a l Ha _ IH]; [reflexivity|].
  cbn. destruct (f a) eqn:Hf; [|assumption].
  apply Hfg in Hf. congruence.
Qed.

(** Network calls are made by the adapter only. *)
Lemma filter_effects_dispatched (f : Effect -> bool) (env : Env)
    (p code : string) :
  (forall e, f e = true -> is_network e = true) ->
  dispatches env p code ->
  filter f (effects env) = filter f (log (dispatch env p code)).
Proof.
  intros Hf H. destruct (effects_dispatched env p code H) as (tail & -> & Ht).
  cbn [filter].
  destruct (f (SetStatus _)) eqn:E; [apply Hf in E; discriminate|].
  rewrite filter_app, (filter_none f is_network tail Hf Ht).
  apply app_nil_r.
Qed.

Lemma filter_effects_undispatched (f : Effect -> bool) (env : Env)
    (msg : string) :
  (forall e, f e = true -> is_network e = true) ->
  handleAuth_try env = ([], inl (Error (Some msg))) ->
  filter f (effects env) = [].
Proof.
  intros Hf H. rewrite (effects_undispatched env msg H).
  apply (filter_none f is_network); [assumption|].
  apply Forall_app. split; [repeat constructor|].
  apply propagate_not_network.
Qed.

Lemma is_fetch_network (e : Effect) : is_fetch e = true -> is_network e = true.
Proof. destruct e; (discriminate || reflexivity). Qed.

Lemma is_upsert_network (e : Effect) :
  is_upsert e = true -> is_network e = true.
Proof. destruct e; (discriminate || reflexivity). Qed.

Lemma is_connectAccount_network (e : Effect) :
  is_connectAccount e = true -> is_network e = true.
Proof. destruct e; (discriminate || reflexivity). Qed.

Lemma is_downstream_network (e : Effect) :
  is_downstream e = true -> is_network e = true.
Proof. destruct e; (discriminate || reflexivity). Qed.

(** The adapter the [switch] selects. *)
Lemma dispatch_twitter (env : Env) (code : string) :
  dispatch env "twitter" code = handleTwitterAuth env code.
Proof. reflexivity. Qed.

Lemma supported_cases (p : string) :
  supported p = true ->
  p = "twitter"%string \/ p = "linkedin"%string
  \/ p = "facebook"%string \/ p = "instagram"%string.
Proof.
  unfold supported. rewrite !orb_true_iff, !String.eqb_eq. tauto.
Qed.

Lemma exchange_request_supported (env : Env) (p code : string) (r : Request) :
  exchange_request env p code = Some r -> supported p = true.
Proof.
  unfold exchange_request, supported.
  destruct (p =? "twitter")%string; [reflexivity|].
  destruct (p =? "linkedin")%string; [reflexivity|].
  destruct (p =? "facebook")%string; [reflexivity|].
  destruct (p =? "instagram")%string; [reflexivity|discriminate].
Qed.

(** A network call of a flow is a call of its adapter. *)
Lemma effects_in_dispatch (env : Env) (p code : string) (e : Effect) :
  dispatches env p code ->
  is_network e = true ->
  In e (effects env) <-> In e (log (dispatch env p code)).
Proof.
  intros H He.
  pose proof (filter_effects_dispatched is_network env p code
                (fun _ h => h) H) as Hf.
  split; intros Hin.
  - assert (Hi : In e (filter is_network (effects env)))
      by (apply filter_In; now split).
    rewrite Hf in Hi. now apply filter_In in Hi.
  - assert (Hi : In e (filter is_network (log (dispatch env p code))))
      by (apply filter_In; now split).
    rewrite <- Hf in Hi. now apply filter_In in Hi.
Qed.

Lemma effects_in_undispatched (env : Env) (msg : string) (e : Effect) :
  handleAuth_try env = ([], inl (Error (Some msg))) ->
  is_network e = true -> ~ In e (effects env).
Proof.
  intros H He Hin.
  assert (Hi : In e (filter is_network (effects env)))
    by (apply filter_In; now split).
  now rewrite (filter_effects_undispatched is_network env msg
                 (fun _ h => h) H) in Hi.
Qed.

Lemma outcome_dispatched (env : Env) (p code : string) :
  dispatches env p code ->
  outcome env =
  match result (dispatch env p code) with
  | inr _ => Succeeded
  | inl e => caught e
  end.
Proof.
  intros H. pose proof (handleAuth_dispatched env p code H) as Hd.
  destruct (result (dispatch env p code)); apply Hd.
Qed.

(** ** The claims *)

(** *** C1: a provider-supplied error *)

(** C1, as stated, fails: with the redirect [?error=&platform=twitter&code=abc]
    the [error] parameter is present, yet [if (error)] does not fire on the
    empty string; the twitter adapter calls the token endpoint and the flow
    succeeds. *)
Lemma C1_empty_error_reaches_exchange :
  JS.get "error" (searchParams C1_input.empty_error) = Some EmptyString
  /\ outcome C1_input.empty_error = Succeeded
  /\ filter is_fetch (effects C1_input.empty_error) =
     [Fetch (twitter_request C1_input.empty_error "abc")].
Proof. vm_compute. repeat split. Qed.

(** C1, amended: when the redirect parameters carry a non-empty [error]
    value, the flow fails with the message "Authentication failed: <error>",
    its whole log is the failure handling, and no network call (token
    endpoint, store, account service) is ever made. *)
Theorem C1_error_fails_without_exchange (env : Env) (e : string) :
  JS.get "error" (searchParams env) = Some e ->
  e <> EmptyString ->
  outcome env = Failed (Some ("Authentication failed: " ++ e))
  /\ log (handleAuth env) =
     failure_log (Error (Some ("Authentication failed: " ++ e)))
  /\ filter is_network (effects env) = [].
Proof.
  intros He Hne.
  pose proof (handleAuth_try_error env e He Hne) as H.
  repeat split.
  - unfold outcome. now rewrite H.
  - rewrite log_handleAuth, H. reflexivity.
  - exact (filter_effects_undispatched is_network env _ (fun _ h => h) H).
Qed.

Lemma C1_error_fails_without_exchange_witness :
  outcome Sample.denied_popup =
  Failed (Some "Authentication failed: access_denied")
  /\ log (handleAuth Sample.denied_popup) =
     failure_log (Error (Some "Authentication failed: access_denied"))
  /\ filter is_network (effects Sample.denied_popup) = [].
Proof.
  apply (C1_error_fails_without_exchange Sample.denied_popup "access_denied").
  - reflexivity.
  - discriminate.
Defined.

(** *** C8: missing parameters *)

(** C8: when the redirect parameters carry no [error] value (none, or an
    empty one) and [platform] or [code] is missing (absent or empty), the
    flow fails with "Missing required parameters", its whole log is the
    failure handling, and no network call is made. *)
Theorem C8_missing_parameters_fail_before_network (env : Env) :
  JS.truthy (JS.get "error" (searchParams env)) = false ->
  JS.truthy (JS.get "platform" (searchParams env)) = false
  \/ JS.truthy (JS.get "code" (searchParams env)) = false ->
  outcome env = Failed (Some "Missing required parameters")
  /\ log (handleAuth env) =
     failure_log (Error (Some "Missing required parameters"))
  /\ filter is_network (effects env) = [].
Proof.
  intros He Hm.
  pose proof (handleAuth_try_missing env He Hm) as H.
  repeat split.
  - unfold outcome. now rewrite H.
  - rewrite log_handleAuth, H. reflexivity.
  - exact (filter_effects_undispatched is_network env _ (fun _ h => h) H).
Qed.

Lemma C8_missing_parameters_fail_before_network_witness :
  JS.get "error" (searchParams C8_input.no_code) = None
  /\ JS.get "code" (searchParams C8_input.no_code) = None
  /\ outcome C8_input.no_code = Failed (Some "Missing required parameters")
  /\ log (handleAuth C8_input.no_code) =
     failure_log (Error (Some "Missing required parameters"))
  /\ filter is_network (effects C8_input.no_code) = [].
Proof.
  split; [reflexivity|]. split; [reflexivity|].
  apply (C8_missing_parameters_fail_before_network C8_input.no_code).
  - reflexivity.
  - right. reflexivity.
Defined.

(** *** C3 and C4: result propagation *)








(** *** C9: only the twitter adapter writes the credential store *)

Lemma dispatch_other_no_upsert (env : Env) (p code : string) :
  p <> "twitter"%string ->
  filter is_upsert (log (dispatch env p code)) = [].
Proof.
  intros Hp. unfold dispatch.
  destruct (String.eqb_spec p "twitter"); [contradiction|].
  destruct (p =? "linkedin")%string;
    [|destruct (p =? "facebook")%string;
      [|destruct (p =? "instagram")%string]];
    unfold_adapters; ask_surroundings; reflexivity.
Qed.

Lemma dispatch_other_downstream (env : Env) (p code : string) (u : unit) :
  p <> "twitter"%string ->
  result (dispatch env p code) = inr u ->
  filter is_downstream (log (dispatch env p code)) = [ConnectAccount p].
Proof.
  intros Hp. unfold dispatch.
  destruct (String.eqb_spec p "twitter"); [contradiction|].
  destruct (String.eqb_spec p "linkedin");
    [|destruct (String.eqb_spec p "facebook");
      [|destruct (String.eqb_spec p "instagram")]];
    subst; unfold_adapters; ask_surroundings;
    intros; (discriminate || reflexivity).
Qed.

Lemma succeeded_dispatch (env : Env) (p code : string) :
  dispatches env p code -> outcome env = Succeeded ->
  result (dispatch env p code) = inr tt.
Proof.
  intros H Ho. pose proof (handleAuth_dispatched env p code H) as Hd.
  destruct (result (dispatch env p code)) as [e|[]]; [|reflexivity].
  destruct Hd as [Hd _]. rewrite Ho in Hd. destruct e; discriminate Hd.
Qed.

(** C9: whenever a flow calls [upsert], its [platform] parameter is
    [twitter]; a flow for any other platform (linkedin, facebook and
    instagram among them) never calls [upsert], and when it succeeds its
    only call to the collaborators behind the page (user lookup, store,
    account service) is [connectAccount] with that platform. *)
Theorem C9_only_twitter_persists (env : Env) :
  (forall table row,
     In (Upsert table row) (effects env) ->
     JS.get "platform" (searchParams env) = Some "twitter"%string)
  /\ (forall p,
        JS.get "platform" (searchParams env) = Some p ->
        p <> "twitter"%string ->
        filter is_upsert (effects env) = []
        /\ (outcome env = Succeeded ->
            filter is_downstream (effects env) = [ConnectAccount p])).
Proof.
  destruct (handleAuth_try_cases env) as [[msg H]|(p & code & H)].
  - pose proof (filter_effects_undispatched is_upsert env msg
                  is_upsert_network H) as Hnone.
    split.
    + intros table row Hin.
      assert (Hf : In (Upsert table row) (filter is_upsert (effects env)))
        by (apply filter_In; now split).
      rewrite Hnone in Hf. contradiction.
    + intros p _ _. split; [assumption|].
      unfold outcome. rewrite H. discriminate.
  - pose proof (filter_effects_dispatched is_upsert env p code
                  is_upsert_network H) as Hup.
    assert (Hp : JS.get "platform" (searchParams env) = Some p) by apply H.
    split.
    + intros table row Hin.
      destruct (String.eqb_spec p "twitter") as [->|Hne]; [assumption|].
      assert (Hf : In (Upsert table row) (filter is_upsert (effects env)))
        by (apply filter_In; now split).
      rewrite Hup, (dispatch_other_no_upsert env p code Hne) in Hf.
      contradiction.
    + intros p' Hp' Hne. rewrite Hp in Hp'. injection Hp' as <-. split.
      * rewrite Hup. now apply dispatch_other_no_upsert.
      * intros Ho.
        rewrite (filter_effects_dispatched is_downstream env p code
                   is_downstream_network H).
        apply (dispatch_other_downstream env p code tt Hne).
        now apply succeeded_dispatch.
Qed.

Lemma C9_only_twitter_persists_witness :
  filter is_upsert (effects C9_input.instagram_popup) = []
  /\ filter is_downstream (effects C9_input.instagram_popup) =
     [ConnectAccount "instagram"].
Proof.
  destruct (proj2 (C9_only_twitter_persists C9_input.instagram_popup)
              "instagram"%string eq_refl) as [Hu Hd].
  - discriminate.
  - split; [exact Hu | exact (Hd eq_refl)].
Defined.

(** *** C2: the account service is notified after a successful exchange *)

(** C2, as stated, fails: the twitter exchange for code "abc" succeeds (the
    token endpoint answers with a success status and tokens), the store
    reports an error on the upsert, [handleTwitterAuth] throws "Failed to
    store Twitter credentials" and [connectAccount] is never called. *)
Lemma C2_twitter_store_error_skips_connectAccount :
  exchange_tokens C2_input.store_refuses "twitter" "abc" = Some Sample.tokens
  /\ filter is_connectAccount (effects C2_input.store_refuses) = []
  /\ outcome C2_input.store_refuses =
     Failed (Some "Failed to store Twitter credentials").
Proof. vm_compute. repeat split. Qed.

(** C2, amended: for every supported platform P and code C for which the
    exchange succeeds, and, when P is twitter, for which the credential was
    stored, the flow makes exactly one call to [connectAccount], with
    argument P; for the other three platforms this holds though nothing is
    persisted. *)
Theorem C2_one_connectAccount_after_exchange (env : Env) (p code : string)
    (tokens : Parsed) :
  dispatches env p code ->
  exchange_tokens env p code = Some tokens ->
  (p = "twitter"%string -> stored env) ->
  filter is_connectAccount (effects env) = [ConnectAccount p].
Proof.
  intros H Hex Hst.
  rewrite (filter_effects_dispatched is_connectAccount env p code
             is_connectAccount_network H).
  assert (Hst' : p = "twitter"%string ->
                 exists row,
                   In (Upsert "social_media_accounts" row)
                     (filter is_upsert (log (dispatch env p code)))
                   /\ upsert env row = false).
  { intros Hp. destruct (Hst Hp) as (row & Hin & Hrow). exists row.
    split; [|assumption].
    rewrite <- (filter_effects_dispatched is_upsert env p code
                  is_upsert_network H).
    apply filter_In. now split. }
  clear Hst H. unfold exchange_tokens in Hex.
  destruct (exchange_request env p code) as [r|] eqn:Hr; [|discriminate].
  pose proof (exchange_request_supported env p code r Hr) as Hs.
  apply supported_cases in Hs as [-> | [-> | [-> | ->]]];
    cbn in Hr; injection Hr as <-;
    unfold dispatch in *; cbn [String.eqb Ascii.eqb Bool.eqb] in *;
    unfold handleTwitterAuth, handleTwitterAuth_try, handleLinkedInAuth,
      handleFacebookAuth, handleInstagramAuth, await_fetch, await_json,
      await_connectAccount, expires_at_of, throw_Error in *;
    match type of Hex with
    | context [fetch ?e ?r] =>
        destruct (fetch e r) as [[[] [j|?]]|?]; try discriminate
    end; cbn in *.
  - (* twitter *)
    destruct (Hst' eq_refl) as (row & Hin & Hrow). clear Hst'.
    destruct j as [j|]; cbn in *; [|contradiction].
    destruct (expires_in j); cbn in *; [|contradiction].
    destruct (JS.toISOString _); cbn in *; [|contradiction].
    match type of Hin with
    | context [upsert ?e ?r] => destruct (upsert e r) eqn:Hu
    end; cbn in *.
    + destruct Hin as [Hin|[]]. injection Hin as <-. congruence.
    + destruct (connectAccount env "twitter") as [[m| |]|]; reflexivity.
  - destruct (connectAccount env "linkedin"); reflexivity.
  - destruct (connectAccount env "facebook"); reflexivity.
  - destruct (connectAccount env "instagram"); reflexivity.
Qed.

Lemma C2_one_connectAccount_after_exchange_witness :
  filter is_connectAccount (effects Sample.twitter_popup) =
  [ConnectAccount "twitter"].
Proof.
  apply (C2_one_connectAccount_after_exchange Sample.twitter_popup
           "twitter" "abc" Sample.tokens).
  - repeat split; (reflexivity || discriminate).
  - reflexivity.
  - intros _. eexists. split; [|reflexivity].
    cbv. do 3 right. left. reflexivity.
Defined.

(** *** C5: the user identifier attached to the stored credential *)


Lemma dispatched_not_rejected (env : Env) (p code : string) (e : Exception) :
  dispatches env p code -> handleAuth_try env <> ([], inl e).
Proof.
  intros H. rewrite (handleAuth_try_dispatched env p code H).
  unfold bind, emit.
  destruct (dispatch env p code) as [l [x|[]]]; cbn; [discriminate|].
  destruct (propagate env _) as [l' r]. discriminate.
Qed.






(** *** C6: build-time client credentials *)

(** C6, as stated, fails: on a build without the linkedin client id and
    secret the flow raises no configuration error; it sends the
    token-endpoint request with the text [undefined] in both fields, and,
    the endpoint answering, it succeeds. *)
Lemma C6_missing_credential_is_sent_as_undefined :
  VITE_LINKEDIN_CLIENT_ID (import_meta_env C6_input.unconfigured) = None
  /\ VITE_LINKEDIN_CLIENT_SECRET (import_meta_env C6_input.unconfigured) = None
  /\ filter is_fetch (effects C6_input.unconfigured) =
     [ Fetch {| url := "https://www.linkedin.com/oauth/v2/accessToken";
                method := "POST";
                content_type := "application/x-www-form-urlencoded";
                body := [ ("grant_type", "authorization_code");
                          ("code", "abc");
                          ("client_id", "undefined");
                          ("client_secret", "undefined");
                          ("redirect_uri",
                           "https://app.example/auth/callback?platform=linkedin")
                        ] |} ]
  /\ outcome C6_input.unconfigured = Succeeded.
Proof. vm_compute. repeat split. Qed.

(** C6, amended: no adapter checks its build-time credentials.  Whenever the
    flow reaches the adapter of a supported platform it calls [fetch] exactly
    once, with the token-endpoint request, whatever the configuration; the
    request carries the client id (and, for linkedin, facebook and
    instagram, the client secret) as configured, and the text [undefined]
    in place of a variable that is absent. *)
Theorem C6_request_sent_whatever_the_configuration (env : Env)
    (p code : string) (r : Request) :
  dispatches env p code ->
  exchange_request env p code = Some r ->
  filter is_fetch (effects env) = [Fetch r]
  /\ In ("client_id"%string,
         JS.USVString (client_id (import_meta_env env) p)) (body r)
  /\ (p <> "twitter"%string ->
      In ("client_secret"%string,
          JS.USVString (client_secret (import_meta_env env) p)) (body r))
  /\ (client_id (import_meta_env env) p = None ->
      In ("client_id"%string, "undefined"%string) (body r)).
Proof.
  intros H Hr.
  rewrite (filter_effects_dispatched is_fetch env p code is_fetch_network H).
  pose proof (exchange_request_supported env p code r Hr) as Hs.
  assert (Hid : In ("client_id"%string,
                    JS.USVString (client_id (import_meta_env env) p))
                  (body r)
                /\ (p <> "twitter"%string ->
                    In ("client_secret"%string,
                        JS.USVString (client_secret (import_meta_env env) p))
                      (body r))).
  { apply supported_cases in Hs as [-> | [-> | [-> | ->]]];
      cbn in Hr; injection Hr as <-; cbn; intuition congruence. }
  destruct Hid as [Hid Hsec].
  repeat split; [|assumption|assumption|intros E; now rewrite E in Hid].
  apply supported_cases in Hs as [-> | [-> | [-> | ->]]];
    cbn in Hr; injection Hr as <-;
    unfold dispatch; cbn [String.eqb Ascii.eqb Bool.eqb];
    unfold_adapters; ask_surroundings; reflexivity.
Qed.

Lemma C6_request_sent_whatever_the_configuration_witness :
  filter is_fetch (effects C6_input.unconfigured) =
  [Fetch (linkedin_request C6_input.unconfigured "abc")]
  /\ In ("client_id"%string, "undefined"%string)
       (body (linkedin_request C6_input.unconfigured "abc")).
Proof.
  destruct (C6_request_sent_whatever_the_configuration C6_input.unconfigured
              "linkedin" "abc" (linkedin_request C6_input.unconfigured "abc"))
    as (Hf & _ & _ & Hu).
  - repeat split; (reflexivity || discriminate).
  - reflexivity.
  - split; [exact Hf | exact (Hu eq_refl)].
Defined.

(** *** C7: the expiry of the stored twitter credential *)




(** *** C10: the [state] parameter *)

Lemma handleAuth_try_params (env : Env) (ps ps' : list (string * string)) :
  JS.get "platform" ps = JS.get "platform" ps' ->
  JS.get "code" ps = JS.get "code" ps' ->
  JS.get "error" ps = JS.get "error" ps' ->
  handleAuth_try (with_searchParams ps env) =
  handleAuth_try (with_searchParams ps' env).
Proof.
  intros Hp Hc He. unfold handleAuth_try.
  cbn [searchParams with_searchParams]. rewrite Hp, Hc, He. reflexivity.
Qed.

(** C10: two flows in the same surroundings whose redirect parameters agree
    on every name but [state] behave alike: [handleAuth] yields the same
    log (same requests and bodies, same upsert, same notifications, same
    status and error updates) and the same is true of the whole timeline,
    timer included.  The value of [state] is read and never looked at. *)
Theorem C10_state_is_ignored (env : Env) (ps ps' : list (string * string)) :
  (forall k, k <> "state"%string -> JS.get k ps = JS.get k ps') ->
  handleAuth (with_searchParams ps env) = handleAuth (with_searchParams ps' env)
  /\ timeline (with_searchParams ps env) = timeline (with_searchParams ps' env)
  /\ outcome (with_searchParams ps env) = outcome (with_searchParams ps' env).
Proof.
  intros H.
  assert (Ht : handleAuth_try (with_searchParams ps env) =
               handleAuth_try (with_searchParams ps' env))
    by (apply handleAuth_try_params; apply H; discriminate).
  assert (Hh : handleAuth (with_searchParams ps env) =
               handleAuth (with_searchParams ps' env))
    by (unfold handleAuth; now rewrite Ht).
  repeat split.
  - exact Hh.
  - unfold timeline. rewrite Hh. reflexivity.
  - unfold outcome. now rewrite Ht.
Qed.

Lemma C10_state_is_ignored_witness :
  timeline (with_searchParams C10_input.with_state_xyz Sample.twitter_popup) =
  timeline (with_searchParams C10_input.with_other_state Sample.twitter_popup).
Proof.
  apply (C10_state_is_ignored Sample.twitter_popup
           C10_input.with_state_xyz C10_input.with_other_state).
  intros k Hk. unfold C10_input.with_state_xyz, C10_input.with_other_state.
  cbn [JS.get].
  destruct (String.eqb_spec "state" k) as [E|_]; [now elim Hk|].
  destruct ("platform" =? k)%string; [reflexivity|].
  destruct ("code" =? k)%string; reflexivity.
Defined.

(** ** Further properties of the page *)

(** *** What an adapter does, answer by answer *)

Lemma or_else_nonempty (v : option string) (d : string) :
  d <> EmptyString -> JS.or_else v d <> EmptyString.
Proof.
  intros Hd. destruct v as [s|]; cbn; [|assumption].
  destruct (String.eqb_spec s EmptyString); assumption.
Qed.

Lemma or_else_idempotent (v : option string) (d d' : string) :
  d <> EmptyString -> JS.or_else (Some (JS.or_else v d)) d' = JS.or_else v d.
Proof.
  intros Hd. pose proof (or_else_nonempty v d Hd) as Hne.
  cbn. destruct (String.eqb_spec (JS.or_else v d) EmptyString);
    [contradiction | reflexivity].
Qed.

(** The adapters without a proxy, as one function of the answers. *)
Lemma dispatch_direct (env : Env) (p code : string) (r : Request) :
  p <> "twitter"%string ->
  exchange_request env p code = Some r ->
  dispatch env p code =
  match fetch env r with
  | FetchRejected e => ([Fetch r], inl e)
  | FetchResponse resp =>
      if ok resp then
        match json resp with
        | JsonRejected e => ([Fetch r], inl e)
        | JsonValue _ =>
            match connectAccount env p with
            | None => ([Fetch r; ConnectAccount p], inr tt)
            | Some e => ([Fetch r; ConnectAccount p], inl e)
            end
        end
      else ([Fetch r], inl (Error (Some (token_failure_message p))))
  end.
Proof.
  intros Hp Hr.
  pose proof (exchange_request_supported env p code r Hr) as Hs.
  apply supported_cases in Hs as [-> | [-> | [-> | ->]]];
    [contradiction | | |];
    cbn in Hr; injection Hr as <-;
    unfold dispatch; cbn [String.eqb Ascii.eqb Bool.eqb];
    unfold_adapters; cbn;
    match goal with
    | |- context [fetch ?e ?r] => destruct (fetch e r) as [[[] [?|?]]|?]
    end; cbn; try reflexivity;
    match goal with
    | |- context [connectAccount ?e ?p] => destruct (connectAccount e p)
    end; reflexivity.
Qed.

(** *** X1: a platform outside the [switch] *)

(** X1: when the flow reaches the [switch] with a platform that is none of
    twitter, linkedin, facebook and instagram, it fails with "Unsupported
    platform" after announcing "Connecting <platform> account..."; no
    adapter runs and no network call is made. *)
Theorem X1_unsupported_platform (env : Env) (p code : string) :
  dispatches env p code ->
  supported p = false ->
  outcome env = Failed (Some "Unsupported platform")
  /\ log (handleAuth env) =
     (SetStatus ("Connecting " ++ p ++ " account...")
      :: failure_log (Error (Some "Unsupported platform")))
  /\ filter is_network (effects env) = [].
Proof.
  intros H Hs.
  assert (Hd : dispatch env p code =
               ([], inl (Error (Some "Unsupported platform")))).
  { unfold supported in Hs. apply orb_false_elim in Hs as [Hs Hi].
    apply orb_false_elim in Hs as [Hs Hf].
    apply orb_false_elim in Hs as [Ht Hl].
    unfold dispatch. now rewrite Ht, Hl, Hf, Hi. }
  pose proof (handleAuth_dispatched env p code H) as Hl.
  rewrite (outcome_dispatched env p code H).
  rewrite (filter_effects_dispatched is_network env p code (fun _ h => h) H).
  rewrite Hd in *. cbn in *. destruct Hl as [_ Hl]. now repeat split.
Qed.

Lemma X1_unsupported_platform_witness :
  outcome Sample.tiktok_page = Failed (Some "Unsupported platform")
  /\ log (handleAuth Sample.tiktok_page) =
     (SetStatus "Connecting tiktok account..."
      :: failure_log (Error (Some "Unsupported platform")))
  /\ filter is_network (effects Sample.tiktok_page) = [].
Proof.
  apply (X1_unsupported_platform Sample.tiktok_page "tiktok" "abc").
  - repeat split; (reflexivity || discriminate).
  - reflexivity.
Defined.

(** *** X2, X3, X4: failures of the exchange *)

(** X2: when the linkedin, facebook or instagram token endpoint answers with
    a status that is not [ok], the flow fails with the adapter's fixed
    message ("Failed to get LinkedIn access token" and alike), whatever the
    response body says; the request is the flow's only network call. *)
Theorem X2_refusal_has_fixed_message (env : Env) (p code : string)
    (r : Request) (resp : Response) :
  dispatches env p code ->
  p <> "twitter"%string ->
  exchange_request env p code = Some r ->
  fetch env r = FetchResponse resp ->
  ok resp = false ->
  outcome env = Failed (Some (token_failure_message p))
  /\ filter is_network (effects env) = [Fetch r].
Proof.
  intros H Hp Hr Hf Hok.
  rewrite (outcome_dispatched env p code H).
  rewrite (filter_effects_dispatched is_network env p code (fun _ h => h) H).
  rewrite (dispatch_direct env p code r Hp Hr), Hf, Hok. now split.
Qed.

Lemma X2_refusal_has_fixed_message_witness :
  outcome More_input.linkedin_refused =
  Failed (Some "Failed to get LinkedIn access token")
  /\ filter is_network (effects More_input.linkedin_refused) =
     [Fetch (linkedin_request More_input.linkedin_refused "abc")].
Proof.
  apply (X2_refusal_has_fixed_message More_input.linkedin_refused
           "linkedin" "abc" _
           {| ok := false;
              json := JsonValue
                        (JsonObject
                           {| access_token := None;
                              refresh_token := None;
                              expires_in := None;
                              error_description :=
                                Some "invalid_grant" |}) |}).
  - repeat split; (reflexivity || discriminate).
  - discriminate.
  - reflexivity.
  - reflexivity.
  - reflexivity.
Defined.

(** X3: when the twitter proxy answers with a status that is not [ok] and a
    body that parses, the flow fails with the body's [error_description],
    or with "Failed to get Twitter access token" when that is missing or
    empty, or, when the body is [null], with the message of the [TypeError]
    of reading [error_description] on it; both the body and the error are
    logged to the console, and the request is the flow's only network
    call. *)
Theorem X3_twitter_refusal_reports_description (env : Env) (code : string)
    (resp : Response) (errorData : Parsed) :
  dispatches env "twitter" code ->
  fetch env (twitter_request env code) = FetchResponse resp ->
  ok resp = false ->
  json resp = JsonValue errorData ->
  let msg :=
    match errorData with
    | JsonObject j =>
        JS.or_else (error_description j) "Failed to get Twitter access token"
    | JsonNull => JS.cannot_read "null" "error_description"
    end in
  outcome env = Failed (Some msg)
  /\ log (dispatch env "twitter" code) =
     [ Fetch (twitter_request env code);
       ConsoleError "Twitter token error:" (LoggedJson errorData);
       ConsoleError "Twitter auth error:"
         (LoggedException (Error (Some msg))) ]
  /\ filter is_network (effects env) = [Fetch (twitter_request env code)].
Proof.
  intros H Hf Hok Hj msg.
  assert (Hd : dispatch env "twitter" code =
               ([ Fetch (twitter_request env code);
                  ConsoleError "Twitter token error:" (LoggedJson errorData);
                  ConsoleError "Twitter auth error:"
                    (LoggedException (Error (Some msg))) ],
                inl (Error (Some msg)))).
  { rewrite dispatch_twitter. unfold_adapters. rewrite Hf.
    cbn -[JS.or_else]. rewrite Hok, Hj. subst msg.
    destruct errorData as [j|]; cbn -[JS.or_else].
    - now rewrite or_else_idempotent by discriminate.
    - reflexivity. }
  rewrite (outcome_dispatched env _ code H).
  rewrite (filter_effects_dispatched is_network env _ code (fun _ h => h) H).
  rewrite Hd. now repeat split.
Qed.

Lemma X3_twitter_refusal_reports_description_witness :
  outcome More_input.twitter_refused = Failed (Some "invalid_grant")
  /\ outcome More_input.twitter_refused_null =
     Failed (Some (JS.cannot_read "null" "error_description")).
Proof.
  assert (Hd : dispatches More_input.twitter_refused "twitter" "abc")
    by (repeat split; (reflexivity || discriminate)).
  assert (Hn : dispatches More_input.twitter_refused_null "twitter" "abc")
    by (repeat split; (reflexivity || discriminate)).
  split.
  - exact (proj1 (X3_twitter_refusal_reports_description
                    More_input.twitter_refused "abc" _ _
                    Hd eq_refl eq_refl eq_refl)).
  - exact (proj1 (X3_twitter_refusal_reports_description
                    More_input.twitter_refused_null "abc" _ _
                    Hn eq_refl eq_refl eq_refl)).
Defined.

(** X4: a twitter flow that fails always has a non-empty message, and its
    failure is always reported: [handleTwitterAuth] rethrows whatever it
    catches as [new Error(error.message || 'Failed to authenticate with
    Twitter')], and when it caught [undefined] or [null] the read of
    [error.message] throws a [TypeError], whose message the flow then
    carries. *)
Theorem X4_twitter_failure_has_a_message (env : Env) (code : string) :
  dispatches env "twitter" code ->
  outcome env = Succeeded
  \/ exists s,
       outcome env = Failed (Some s) /\ s <> EmptyString
       /\ exists e,
            result (handleTwitterAuth_try env code) = inl e
            /\ s = twitter_rethrown e.
Proof.
  intros H. rewrite (outcome_dispatched env _ code H), dispatch_twitter.
  unfold handleTwitterAuth, try_catch.
  destruct (handleTwitterAuth_try env code) as [l [e|[]]];
    [|now left].
  right. unfold twitter_rethrown. destruct e as [m| |]; cbn -[JS.or_else].
  - eexists. split; [reflexivity|]. split.
    + apply or_else_nonempty. discriminate.
    + now exists (Error m).
  - eexists. split; [reflexivity|]. split; [discriminate|].
    now exists ThrownUndefined.
  - eexists. split; [reflexivity|]. split; [discriminate|].
    now exists ThrownNull.
Qed.

Lemma X4_twitter_failure_has_a_message_witness :
  outcome More_input.twitter_offline =
  Failed (Some "Failed to authenticate with Twitter")
  /\ outcome More_input.twitter_rejects_with_undefined =
     Failed (Some (JS.cannot_read "undefined" "message")).
Proof.
  assert (Hd : dispatches More_input.twitter_offline "twitter" "abc")
    by (repeat split; (reflexivity || discriminate)).
  assert (Hu : dispatches More_input.twitter_rejects_with_undefined
                 "twitter" "abc")
    by (repeat split; (reflexivity || discriminate)).
  split.
  - destruct (X4_twitter_failure_has_a_message More_input.twitter_offline
                "abc" Hd) as [Hs|(s & Ho & _ & e & He & ->)].
    + discriminate Hs.
    + injection He as <-. exact Ho.
  - destruct (X4_twitter_failure_has_a_message
                More_input.twitter_rejects_with_undefined "abc" Hu)
      as [Hs|(s & Ho & _ & e & He & ->)].
    + discriminate Hs.
    + injection He as <-. exact Ho.
Defined.

(** X5: in the linkedin, facebook and instagram adapters a rejection
    passes through unchanged.  When [fetch] rejects, or the response is [ok]
    but its body does not parse (the tokens themselves are never used), the
    value thrown reaches the [catch] block of [handleAuth] as it is: the
    flow fails with its [message], also when that is absent, this is the
    message displayed and handed to the 3000 ms timer, and the request is
    the flow's only network call.  Were the value [undefined] or [null],
    the failure would go unreported and no timer be registered. *)
Theorem X5_direct_rejection_passes_through (env : Env) (p code : string)
    (r : Request) (e : Exception) :
  dispatches env p code ->
  p <> "twitter"%string ->
  exchange_request env p code = Some r ->
  fetch env r = FetchRejected e
  \/ (exists resp,
        fetch env r = FetchResponse resp
        /\ ok resp = true /\ json resp = JsonRejected e) ->
  outcome env = caught e
  /\ filter is_network (effects env) = [Fetch r]
  /\ timers (log (handleAuth env)) =
     match e with
     | Error m => [(PropagateFailure m, 3000)]
     | ThrownUndefined | ThrownNull => []
     end.
Proof.
  intros H Hp Hr Hrej.
  assert (Hd : dispatch env p code = ([Fetch r], inl e)).
  { rewrite (dispatch_direct env p code r Hp Hr).
    destruct Hrej as [->|(resp & -> & -> & ->)]; reflexivity. }
  pose proof (handleAuth_dispatched env p code H) as Hl.
  rewrite (outcome_dispatched env p code H).
  rewrite (filter_effects_dispatched is_network env p code (fun _ h => h) H).
  rewrite Hd in *. cbn in *. destruct Hl as [_ ->].
  destruct e; now repeat split.
Qed.

Lemma X5_direct_rejection_passes_through_witness :
  (outcome More_input.facebook_offline = Failed None
   /\ filter is_network (effects More_input.facebook_offline) =
      [Fetch (facebook_request More_input.facebook_offline "abc")]
   /\ timers (log (handleAuth More_input.facebook_offline)) =
      [(PropagateFailure None, 3000)])
  /\ outcome More_input.instagram_garbled =
     Failed (Some "Unexpected token < in JSON at position 0").
Proof.
  split.
  - apply (X5_direct_rejection_passes_through More_input.facebook_offline
             "facebook" "abc" _ (Error None)).
    + repeat split; (reflexivity || discriminate).
    + discriminate.
    + reflexivity.
    + left. reflexivity.
  - apply (X5_direct_rejection_passes_through More_input.instagram_garbled
             "instagram" "abc"
             (instagram_request More_input.instagram_garbled "abc")
             More_input.parse_error).
    + repeat split; (reflexivity || discriminate).
    + discriminate.
    + reflexivity.
    + right. eexists. repeat split; reflexivity.
Defined.

(** *** X6, X7: what is sent to the token endpoint *)

Lemma fetches_of_dispatch (env : Env) (p code : string) :
  filter is_fetch (log (dispatch env p code)) =
  match exchange_request env p code with
  | Some r => [Fetch r]
  | None => []
  end.
Proof.
  unfold dispatch, exchange_request.
  destruct (p =? "twitter")%string;
    [|destruct (p =? "linkedin")%string;
      [|destruct (p =? "facebook")%string;
        [|destruct (p =? "instagram")%string]]];
    unfold_adapters; ask_surroundings; reflexivity.
Qed.

Lemma fetch_in_effects (env : Env) (r : Request) :
  In (Fetch r) (effects env) ->
  exists p code,
    dispatches env p code /\ exchange_request env p code = Some r.
Proof.
  intros Hin.
  destruct (handleAuth_try_cases env) as [[msg H]|(p & code & H)].
  - now apply (effects_in_undispatched env msg (Fetch r) H eq_refl) in Hin.
  - exists p, code. split; [assumption|].
    apply (effects_in_dispatch env p code (Fetch r) H eq_refl) in Hin.
    assert (Hi : In (Fetch r) (filter is_fetch (log (dispatch env p code))))
      by (apply filter_In; now split).
    rewrite fetches_of_dispatch in Hi.
    destruct (exchange_request env p code) as [r'|]; [|contradiction].
    destruct Hi as [Hi|[]]. now injection Hi as ->.
Qed.

(** X6: whatever request a flow sends to a token endpoint, its [code] field
    is the [code] query parameter, unchanged, its [redirect_uri] field is
    [<origin>/auth/callback?platform=<platform>] for the [platform] query
    parameter, and it is declared as form-encoded. *)
Theorem X6_request_carries_code_and_redirect_uri (env : Env) (r : Request) :
  In (Fetch r) (effects env) ->
  exists p code,
    JS.get "platform" (searchParams env) = Some p
    /\ JS.get "code" (searchParams env) = Some code
    /\ JS.get "code" (body r) = Some code
    /\ JS.get "redirect_uri" (body r) =
       Some (window_location_origin env ++ "/auth/callback?platform=" ++ p)
    /\ content_type r = "application/x-www-form-urlencoded"%string.
Proof.
  intros Hin. destruct (fetch_in_effects env r Hin) as (p & code & H & Hr).
  exists p, code. split; [apply H|]. split; [apply H|].
  pose proof (exchange_request_supported env p code r Hr) as Hs.
  apply supported_cases in Hs as [-> | [-> | [-> | ->]]];
    cbn in Hr; injection Hr as <-; repeat split.
Qed.

Lemma X6_request_carries_code_and_redirect_uri_witness :
  exists p code,
    JS.get "platform" (searchParams Sample.linkedin_page) = Some p
    /\ JS.get "code" (searchParams Sample.linkedin_page) = Some code
    /\ JS.get "code"
         (body (linkedin_request Sample.linkedin_page "abc")) = Some code
    /\ JS.get "redirect_uri"
         (body (linkedin_request Sample.linkedin_page "abc")) =
       Some (window_location_origin Sample.linkedin_page
             ++ "/auth/callback?platform=" ++ p)
    /\ content_type (linkedin_request Sample.linkedin_page "abc") =
       "application/x-www-form-urlencoded"%string.
Proof.
  apply (X6_request_carries_code_and_redirect_uri Sample.linkedin_page).
  cbv. right. left. reflexivity.
Defined.

(** X7: the request of a twitter flow goes by POST to the proxy
    [https://api.socialsync.fun/twitter/token], carries the fixed
    [code_verifier] "challenge" and no [client_secret]; the request of any
    other flow carries no [code_verifier] and does carry the configured
    [client_secret] from the browser. *)
Theorem X7_verifier_and_secret (env : Env) (r : Request) (p : string) :
  In (Fetch r) (effects env) ->
  JS.get "platform" (searchParams env) = Some p ->
  (p = "twitter"%string ->
   url r = "https://api.socialsync.fun/twitter/token"%string
   /\ method r = "POST"%string
   /\ JS.get "code_verifier" (body r) = Some "challenge"%string
   /\ JS.get "client_secret" (body r) = None)
  /\ (p <> "twitter"%string ->
      JS.get "code_verifier" (body r) = None
      /\ JS.get "client_secret" (body r) =
         Some (JS.USVString (client_secret (import_meta_env env) p))).
Proof.
  intros Hin Hp.
  destruct (fetch_in_effects env r Hin) as (p' & code & H & Hr).
  assert (p' = p) as -> by (destruct H as (_ & Hp' & _); congruence).
  pose proof (exchange_request_supported env p code r Hr) as Hs.
  apply supported_cases in Hs as [-> | [-> | [-> | ->]]];
    cbn in Hr; injection Hr as <-;
    (split; [intros E; try discriminate E | intros N; try now elim N]);
    repeat split.
Qed.

Lemma X7_verifier_and_secret_witness :
  JS.get "code_verifier" (body (twitter_request Sample.twitter_popup "abc")) =
  Some "challenge"%string
  /\ JS.get "client_secret"
       (body (twitter_request Sample.twitter_popup "abc")) = None.
Proof.
  assert (Hin : In (Fetch (twitter_request Sample.twitter_popup "abc"))
                  (effects Sample.twitter_popup))
    by (cbv; right; left; reflexivity).
  destruct (proj1 (X7_verifier_and_secret Sample.twitter_popup _ "twitter"
                     Hin eq_refl) eq_refl) as (_ & _ & Hv & Hs).
  split; [exact Hv | exact Hs].
Defined.

(** *** X8 to X12: the order and the conditions of the network calls *)

(** Case analysis on the platform, then on every answer. *)
Ltac by_adapter p :=
  unfold dispatch, exchange_tokens, exchange_request;
  destruct (String.eqb_spec p "twitter");
    [|destruct (String.eqb_spec p "linkedin");
      [|destruct (String.eqb_spec p "facebook");
        [|destruct (String.eqb_spec p "instagram")]]];
  try subst p; unfold_adapters; ask_surroundings.

Lemma connect_in_dispatch (env : Env) (p code q : string) :
  In (ConnectAccount q) (log (dispatch env p code)) ->
  q = p /\ exists tokens, exchange_tokens env p code = Some tokens.
Proof.
  by_adapter p; intros Hin;
    repeat (destruct Hin as [Hin|Hin]; try discriminate Hin);
    try contradiction;
    injection Hin as <-; (split; [reflexivity | eexists; reflexivity]).
Qed.

Lemma upsert_in_dispatch (env : Env) (p code table : string)
    (row : Credential) :
  In (Upsert table row) (log (dispatch env p code)) ->
  p = "twitter"%string /\ table = "social_media_accounts"%string
  /\ exists tokens s,
       exchange_tokens env p code = Some (JsonObject tokens)
       /\ expires_in tokens = Some s
       /\ JS.toISOString (Date_now env + s * 1000) =
          Some (cred_expires_at row)
       /\ row = {| cred_platform := "twitter";
                   cred_access_token := access_token tokens;
                   cred_refresh_token := refresh_token tokens;
                   cred_expires_at := cred_expires_at row;
                   cred_user_id := getUser_id env |}.
Proof.
  by_adapter p; intros Hin;
    repeat (destruct Hin as [Hin|Hin]; try discriminate Hin);
    try contradiction;
    injection Hin as <- <-;
    (split; [reflexivity|]; split; [reflexivity|]);
    eexists; eexists; (split; [reflexivity|]);
    (split; [eassumption|]); (split; [eassumption|reflexivity]).
Qed.

Lemma connect_after_upsert (env : Env) (code q : string) :
  In (ConnectAccount q) (log (dispatch env "twitter" code)) ->
  exists row,
    In (Upsert "social_media_accounts" row)
      (log (dispatch env "twitter" code))
    /\ upsert env row = false.
Proof.
  rewrite dispatch_twitter. unfold_adapters. ask_surroundings; intros Hin;
    repeat (destruct Hin as [Hin|Hin]; try discriminate Hin);
    try contradiction;
    (eexists; split; [do 2 right; left; reflexivity | assumption]).
Qed.

(** The adapter returns exactly when the exchange succeeded, the account
    service accepted and, for twitter, the credential was stored. *)
Lemma dispatch_returns (env : Env) (p code : string) :
  result (dispatch env p code) = inr tt <->
  (exists tokens, exchange_tokens env p code = Some tokens)
  /\ connectAccount env p = None
  /\ (p = "twitter"%string ->
      exists row,
        In (Upsert "social_media_accounts" row) (log (dispatch env p code))
        /\ upsert env row = false).
Proof.
  by_adapter p; split;
    try (intros Hr; discriminate Hr);
    try (intros ([tokens Ht] & Hc & Hs); try discriminate Ht;
         try discriminate Hc;
         try (destruct (Hs eq_refl) as (row & Hin & Hrow);
              repeat (destruct Hin as [Hin|Hin]; try discriminate Hin);
              try contradiction; injection Hin as <-; congruence);
         reflexivity);
    intros _;
    (split; [eexists; reflexivity|]); (split; [assumption || reflexivity|]);
    intros E; try discriminate E; try contradiction;
    (eexists; split; [do 2 right; left; reflexivity | assumption]).
Qed.



(** X9: [connectAccount] is called only with the [platform] query parameter
    and only after the exchange for that platform succeeded; for twitter,
    only after the credential was stored. *)
Theorem X9_connectAccount_only_after_exchange (env : Env) (q : string) :
  In (ConnectAccount q) (effects env) ->
  exists code tokens,
    dispatches env q code
    /\ exchange_tokens env q code = Some tokens
    /\ (q = "twitter"%string -> stored env).
Proof.
  intros Hin.
  destruct (handleAuth_try_cases env) as [[msg H]|(p & code & H)].
  - now apply (effects_in_undispatched env msg (ConnectAccount q) H eq_refl)
      in Hin.
  - apply (effects_in_dispatch env p code (ConnectAccount q) H eq_refl)
      in Hin.
    destruct (connect_in_dispatch env p code q Hin) as [-> [tokens Ht]].
    exists code, tokens. split; [assumption|]. split; [assumption|].
    intros ->. destruct (connect_after_upsert env code _ Hin)
      as (row & Hrow & Hok).
    exists row. split; [|assumption].
    now apply (effects_in_dispatch env _ code
                 (Upsert "social_media_accounts" row) H eq_refl).
Qed.

Lemma X9_connectAccount_only_after_exchange_witness :
  exists code tokens,
    dispatches Sample.twitter_popup "twitter" code
    /\ exchange_tokens Sample.twitter_popup "twitter" code = Some tokens
    /\ ("twitter"%string = "twitter"%string -> stored Sample.twitter_popup).
Proof.
  apply (X9_connectAccount_only_after_exchange Sample.twitter_popup).
  cbv. do 4 right. left. reflexivity.
Defined.

(** X10: every row handed to [upsert] goes to the table
    [social_media_accounts], is tagged [twitter], carries the
    [access_token] and [refresh_token] of the token response as they came
    (absent when the response has none) and the current user's identifier,
    and is written only in a twitter flow whose exchange succeeded. *)
Theorem X10_upsert_row_comes_from_the_response (env : Env) (table : string)
    (row : Credential) :
  In (Upsert table row) (effects env) ->
  table = "social_media_accounts"%string
  /\ exists code tokens,
       dispatches env "twitter" code
       /\ exchange_tokens env "twitter" code = Some (JsonObject tokens)
       /\ cred_platform row = "twitter"%string
       /\ cred_access_token row = access_token tokens
       /\ cred_refresh_token row = refresh_token tokens
       /\ cred_user_id row = getUser_id env.
Proof.
  intros Hin.
  destruct (handleAuth_try_cases env) as [[msg H]|(p & code & H)].
  - now apply (effects_in_undispatched env msg (Upsert table row) H eq_refl)
      in Hin.
  - apply (effects_in_dispatch env p code (Upsert table row) H eq_refl)
      in Hin.
    destruct (upsert_in_dispatch env p code table row Hin)
      as (-> & -> & tokens & s & Ht & _ & _ & Hrow).
    split; [reflexivity|]. exists code, tokens.
    split; [exact H|]. split; [exact Ht|].
    rewrite Hrow. cbn. now repeat split.
Qed.

Lemma X10_upsert_row_comes_from_the_response_witness :
  exists code tokens,
    dispatches More_input.twitter_service_down "twitter" code
    /\ exchange_tokens More_input.twitter_service_down "twitter" code =
       Some (JsonObject tokens)
    /\ "twitter"%string = "twitter"%string
    /\ Some "at-1"%string = access_token tokens
    /\ Some "rt-1"%string = refresh_token tokens
    /\ Some "user-1"%string = getUser_id More_input.twitter_service_down.
Proof.
  apply (X10_upsert_row_comes_from_the_response
           More_input.twitter_service_down "social_media_accounts"
           {| cred_platform := "twitter";
              cred_access_token := Some "at-1";
              cred_refresh_token := Some "rt-1";
              cred_expires_at := "2023-11-14T23:13:20.000Z";
              cred_user_id := Some "user-1" |}).
  cbv. do 3 right. left. reflexivity.
Defined.

(** X11: nothing is rolled back.  When the twitter credential was stored and
    [connectAccount] then rejects, the flow fails with the rejection's
    message, or with "Failed to authenticate with Twitter" when it has
    none, or, when the rejection is [undefined] or [null], with the message
    of the [TypeError] of reading [message] on it; the upsert has been made
    and stays made. *)
Theorem X11_twitter_stored_then_service_rejects (env : Env) (code : string)
    (e : Exception) :
  dispatches env "twitter" code ->
  stored env ->
  connectAccount env "twitter" = Some e ->
  outcome env = Failed (Some (twitter_rethrown e))
  /\ exists row,
       upsert env row = false
       /\ filter is_network (effects env) =
          [ Fetch (twitter_request env code); GetUser;
            Upsert "social_media_accounts" row; ConnectAccount "twitter" ].
Proof.
  intros H (row & Hin & Hrow) Hc.
  rewrite (outcome_dispatched env _ code H).
  rewrite (filter_effects_dispatched is_network env _ code (fun _ h => h) H).
  apply (effects_in_dispatch env _ code
           (Upsert "social_media_accounts" row) H eq_refl) in Hin.
  clear H. revert Hin. rewrite dispatch_twitter. unfold_adapters.
  rewrite Hc. unfold twitter_rethrown. ask_surroundings; intros Hin;
    repeat (destruct Hin as [Hin|Hin]; try discriminate Hin);
    try contradiction; injection Hin as <-; try congruence;
    (split; [reflexivity|]; eexists; split; [eassumption | reflexivity]).
Qed.

Lemma X11_twitter_stored_then_service_rejects_witness :
  outcome More_input.twitter_service_down =
  Failed (Some "service unavailable")
  /\ exists row,
       upsert More_input.twitter_service_down row = false
       /\ filter is_network (effects More_input.twitter_service_down) =
          [ Fetch (twitter_request More_input.twitter_service_down "abc");
            GetUser; Upsert "social_media_accounts" row;
            ConnectAccount "twitter" ].
Proof.
  apply (X11_twitter_stored_then_service_rejects
           More_input.twitter_service_down "abc"
           (Error (Some "service unavailable"))).
  - repeat split; (reflexivity || discriminate).
  - eexists. split; [|reflexivity]. cbv. do 3 right. left. reflexivity.
  - reflexivity.
Defined.

(** X12: a flow succeeds exactly when it reaches the [switch] with a
    platform and a code for which the exchange succeeds and the account
    service accepts the platform, and, for twitter, the credential was
    stored. *)
Theorem X12_success_characterised (env : Env) :
  outcome env = Succeeded <->
  exists p code tokens,
    dispatches env p code
    /\ exchange_tokens env p code = Some tokens
    /\ connectAccount env p = None
    /\ (p = "twitter"%string -> stored env).
Proof.
  split.
  - intros Ho.
    destruct (handleAuth_try_cases env) as [[msg H]|(p & code & H)].
    + unfold outcome in Ho. rewrite H in Ho. discriminate.
    + pose proof (succeeded_dispatch env p code H Ho) as Hr.
      apply dispatch_returns in Hr as ([tokens Ht] & Hc & Hs).
      exists p, code, tokens. repeat split; try assumption; try apply H.
      intros E. destruct (Hs E) as (row & Hin & Hrow). exists row.
      split; [|assumption].
      now apply (effects_in_dispatch env p code
                   (Upsert "social_media_accounts" row) H eq_refl).
  - intros (p & code & tokens & H & Ht & Hc & Hs).
    rewrite (outcome_dispatched env p code H).
    assert (Hr : result (dispatch env p code) = inr tt).
    { apply dispatch_returns. split; [now exists tokens|].
      split; [assumption|]. intros E.
      destruct (Hs E) as (row & Hin & Hrow). exists row.
      split; [|assumption].
      now apply (effects_in_dispatch env p code
                   (Upsert "social_media_accounts" row) H eq_refl) in Hin. }
    now rewrite Hr.
Qed.

Lemma X12_success_characterised_witness :
  outcome Sample.linkedin_page = Succeeded.
Proof.
  apply (proj2 (X12_success_characterised Sample.linkedin_page)).
  exists "linkedin"%string, "abc"%string, Sample.tokens.
  split; [repeat split; (reflexivity || discriminate)|].
  split; [reflexivity|]. split; [reflexivity|].
  intros E. discriminate E.
Defined.

(** *** X13 to X15: what the page shows *)

Lemma statuses_app (l1 l2 : list Effect) :
  statuses (l1 ++ l2) = (statuses l1 ++ statuses l2)%list.
Proof.
  induction l1 as [|e l1 IH]; [reflexivity|].
  destruct e; cbn; rewrite IH; reflexivity.
Qed.

Lemma statuses_adapter (l : list Effect) :
  Forall (fun e => is_adapter_effect e = true) l -> statuses l = [].
Proof.
  induction 1 as [|e l He _ IH]; [reflexivity|].
  destruct e; try discriminate; assumption.
Qed.

Lemma statuses_propagate (env : Env) (m : Message) :
  statuses (log (propagate env m)) = [].
Proof. unfold propagate. destruct (window_opener env); reflexivity. Qed.

Lemma state_adapter (l : list Effect) (st : PageState) :
  Forall (fun e => is_adapter_effect e = true) l ->
  fold_left set_state l st = st.
Proof.
  induction 1 as [|e l He _ IH]; [reflexivity|].
  destruct e; try discriminate; assumption.
Qed.

Lemma state_propagate (env : Env) (m : Message) (st : PageState) :
  fold_left set_state (log (propagate env m)) st = st.
Proof. unfold propagate. destruct (window_opener env); reflexivity. Qed.

Lemma reaches_switch_dispatches (env : Env) (p code : string) :
  dispatches env p code ->
  reaches_switch env = true
  /\ JS.narrowed (JS.get "platform" (searchParams env)) = p.
Proof.
  intros (He & Hp & Hc & Hp' & Hc'). unfold reaches_switch.
  rewrite He, Hp, Hc, (truthy_Some p Hp'), (truthy_Some code Hc').
  now split.
Qed.

Lemma reaches_switch_rejected (env : Env) (e : Exception) :
  handleAuth_try env = ([], inl e) -> reaches_switch env = false.
Proof.
  intros H. destruct (reaches_switch env) eqn:Hr; [|reflexivity].
  unfold reaches_switch in Hr.
  apply andb_prop in Hr as [Hr Hc]. apply andb_prop in Hr as [He Hp].
  apply negb_true_iff in He.
  apply truthy_inv in Hp as (p & Hp & Hp').
  apply truthy_inv in Hc as (c & Hc & Hc').
  exfalso. apply (dispatched_not_rejected env p c e); [|assumption].
  repeat split; assumption.
Qed.

(** X13: the status goes through at most two updates.  A flow that gets
    past the parameter checks first shows "Connecting <platform>
    account..."; a flow that succeeds then ends on "Successfully
    connected!", a flow that fails on a caught value other than [undefined]
    and [null] ends on "Authentication failed", and a flow that fails on
    [undefined] or [null] gets no further update: it stays on "Connecting
    <platform> account...".  Nothing else is ever shown as status. *)
Theorem X13_status_updates (env : Env) :
  statuses (log (handleAuth env)) =
  ((if reaches_switch env
    then [ "Connecting "
           ++ JS.narrowed (JS.get "platform" (searchParams env))
           ++ " account..." ]%string
    else [])
   ++ match outcome env with
      | Succeeded => ["Successfully connected!"%string]
      | Failed _ => ["Authentication failed"%string]
      | Unreported _ => []
      end)%list.
Proof.
  destruct (handleAuth_try_cases env) as [[msg H]|(p & code & H)].
  - rewrite (reaches_switch_rejected env _ H).
    unfold outcome. rewrite log_handleAuth, H. reflexivity.
  - destruct (reaches_switch_dispatches env p code H) as [-> ->].
    pose proof (dispatch_effects env p code) as Had.
    pose proof (handleAuth_dispatched env p code H) as Hd.
    destruct (result (dispatch env p code)) as [e|u];
      destruct Hd as [-> ->]; cbn [statuses];
      rewrite statuses_app, (statuses_adapter _ Had); cbn.
    + destruct e; reflexivity.
    + now rewrite statuses_propagate.
Qed.

(** The state the flow leaves behind. *)
Lemma final_state (env : Env) :
  state_after (log (handleAuth env)) =
  match outcome env with
  | Succeeded =>
      {| state_status := "Successfully connected!"; state_error := None |}
  | Failed msg =>
      {| state_status := "Authentication failed"; state_error := msg |}
  | Unreported _ =>
      {| state_status :=
           "Connecting "
           ++ JS.narrowed (JS.get "platform" (searchParams env))
           ++ " account...";
         state_error := None |}
  end.
Proof.
  unfold state_after.
  destruct (handleAuth_try_cases env) as [[msg H]|(p & code & H)].
  - unfold outcome. rewrite log_handleAuth, H. reflexivity.
  - destruct (reaches_switch_dispatches env p code H) as [_ ->].
    pose proof (dispatch_effects env p code) as Had.
    pose proof (handleAuth_dispatched env p code H) as Hd.
    destruct (result (dispatch env p code)) as [e|u];
      destruct Hd as [-> ->]; cbn [fold_left];
      rewrite fold_left_app, (state_adapter _ _ Had); cbn;
      [destruct e; reflexivity | now rewrite state_propagate].
Qed.

(** X14: what the page ends up showing is what it reports.  After a success
    the state is "Successfully connected!" with no error and no timer is
    registered; after a failure on a caught value other than [undefined] and
    [null] the state is "Authentication failed" with the caught [message]
    as error, and exactly one timer is registered, of 3000 ms, whose
    function reports that same [message]; after a failure on [undefined] or
    [null] the state is still "Connecting <platform> account..." with no
    error, and no timer is registered. *)
Theorem X14_final_state_and_timer (env : Env) :
  match outcome env with
  | Succeeded =>
      state_after (log (handleAuth env)) =
      {| state_status := "Successfully connected!"; state_error := None |}
      /\ timers (log (handleAuth env)) = []
  | Failed msg =>
      state_after (log (handleAuth env)) =
      {| state_status := "Authentication failed"; state_error := msg |}
      /\ timers (log (handleAuth env)) = [(PropagateFailure msg, 3000)]
  | Unreported _ =>
      state_after (log (handleAuth env)) =
      {| state_status :=
           "Connecting "
           ++ JS.narrowed (JS.get "platform" (searchParams env))
           ++ " account...";
         state_error := None |}
      /\ timers (log (handleAuth env)) = []
  end.
Proof.
  pose proof (final_state env) as Hs.
  destruct (handleAuth_try_cases env) as [[msg H]|(p & code & H)].
  - revert Hs. unfold outcome. rewrite log_handleAuth, H. cbn. now split.
  - pose proof (dispatch_effects env p code) as Had.
    pose proof (handleAuth_dispatched env p code H) as Hd.
    destruct (result (dispatch env p code)) as [e|u];
      destruct Hd as [Ho Hl]; rewrite Ho in *.
    + destruct e; (split; [exact Hs|]); rewrite Hl; cbn [timers];
        rewrite timers_app, (timers_adapter _ Had); reflexivity.
    + split; [exact Hs|]. rewrite Hl. cbn [timers].
      rewrite timers_app, (timers_adapter _ Had). cbn.
      now rewrite timers_propagate.
Qed.

(** X15: what is rendered when the flow has run.  After a success the page
    still shows the spinner, under "Successfully connected!".  After a
    failure with a non-empty message it shows the alert icon,
    "Authentication failed" and the message; after a failure whose message
    is absent or empty ([error ? ... : ...] tests truthiness) it shows the
    spinner and the "Please wait" text under "Authentication failed"; after
    a failure on [undefined] or [null] it shows the spinner and the "Please
    wait" text under "Connecting <platform> account...". *)
Theorem X15_rendered_after_the_flow (env : Env) :
  let view := render (state_after (log (handleAuth env))) in
  match outcome env with
  | Succeeded =>
      texts view = ["Successfully connected!"%string; please_wait]
      /\ tags view = ["div"; "div"; "Loader2"; "h2"; "p"]%string
  | Failed msg =>
      if JS.truthy msg then
        texts view = ["Authentication failed"%string; JS.narrowed msg]
        /\ tags view = ["div"; "div"; "div"; "AlertCircle"; "h2"; "p"]%string
      else
        texts view = ["Authentication failed"%string; please_wait]
        /\ tags view = ["div"; "div"; "Loader2"; "h2"; "p"]%string
  | Unreported _ =>
      texts view =
      [ ("Connecting "
         ++ JS.narrowed (JS.get "platform" (searchParams env))
         ++ " account...")%string;
        please_wait ]
      /\ tags view = ["div"; "div"; "Loader2"; "h2"; "p"]%string
  end.
Proof.
  intros view. subst view. pose proof (final_state env) as Hs.
  rewrite Hs. destruct (outcome env) as [|msg|e].
  - now split.
  - unfold render. cbn [state_error state_status].
    destruct (JS.truthy msg); now split.
  - now split.
Qed.

(** *** X16, X17: the clock, the user and the store *)

Lemma dispatch_with_persistence (env : Env) (now : Z) (u : option string)
    (store : Credential -> bool) (p code : string) :
  p <> "twitter"%string ->
  dispatch (with_persistence now u store env) p code = dispatch env p code.
Proof.
  intros Hp. unfold dispatch.
  destruct (String.eqb_spec p "twitter"); [contradiction | reflexivity].
Qed.

(** X16: a flow whose [platform] is not twitter reads neither the clock nor
    the current user nor the store: with any other clock, user and store
    it runs to the same log, the same timeline and the same outcome. *)
Theorem X16_only_twitter_reads_clock_user_store (env : Env) (now : Z)
    (u : option string) (store : Credential -> bool) :
  JS.get "platform" (searchParams env) <> Some "twitter"%string ->
  handleAuth (with_persistence now u store env) = handleAuth env
  /\ timeline (with_persistence now u store env) = timeline env
  /\ outcome (with_persistence now u store env) = outcome env.
Proof.
  intros Hp.
  assert (Hn : JS.narrowed (JS.get "platform" (searchParams env))
               <> "twitter"%string).
  { destruct (JS.get "platform" (searchParams env)) as [p|]; cbn;
      [congruence | discriminate]. }
  assert (Ht : handleAuth_try (with_persistence now u store env) =
               handleAuth_try env).
  { unfold handleAuth_try. cbn [searchParams with_persistence].
    now rewrite (dispatch_with_persistence env now u store _ _ Hn). }
  assert (Hh : handleAuth (with_persistence now u store env) =
               handleAuth env)
    by (unfold handleAuth; now rewrite Ht).
  repeat split.
  - exact Hh.
  - unfold timeline. rewrite Hh. reflexivity.
  - unfold outcome. now rewrite Ht.
Qed.

Lemma X16_only_twitter_reads_clock_user_store_witness :
  timeline (with_persistence 0 None (fun _ => true) Sample.linkedin_page) =
  timeline Sample.linkedin_page.
Proof.
  apply (X16_only_twitter_reads_clock_user_store Sample.linkedin_page 0 None
           (fun _ => true)).
  discriminate.
Defined.

Lemma toISOString_beyond_range (t : Z) :
  JS.maxTime < Z.abs t -> JS.toISOString t = None.
Proof.
  intros H. unfold JS.toISOString.
  destruct (Z.leb_spec (Z.abs t) JS.maxTime); [lia | reflexivity].
Qed.

(** X17: a twitter token response that cannot be made into a row fails the
    flow while the row is being built: the user is not looked up, nothing
    is written to the store and [connectAccount] is not called.  When the
    body is [null] the failure carries the message of the [TypeError] of
    reading [access_token] on it; when the body has no numeric
    [expires_in], or one that puts [Date.now() + expires_in * 1000] outside
    the range of dates, it carries the message of the [RangeError] of
    [toISOString]. *)
Theorem X17_twitter_invalid_expiry (env : Env) (code : string)
    (body : Parsed) :
  dispatches env "twitter" code ->
  exchange_tokens env "twitter" code = Some body ->
  match body with
  | JsonNull =>
      outcome env = Failed (Some (JS.cannot_read "null" "access_token"))
      /\ filter is_network (effects env) = [Fetch (twitter_request env code)]
  | JsonObject tokens =>
      expires_in tokens = None
      \/ (exists s,
            expires_in tokens = Some s
            /\ JS.maxTime < Z.abs (Date_now env + s * 1000)) ->
      outcome env = Failed (Some JS.invalid_time_message)
      /\ filter is_network (effects env) = [Fetch (twitter_request env code)]
  end.
Proof.
  intros H Hex.
  rewrite (outcome_dispatched env _ code H).
  rewrite (filter_effects_dispatched is_network env _ code (fun _ h => h) H).
  clear H. unfold exchange_tokens in Hex. cbn in Hex.
  rewrite dispatch_twitter. unfold_adapters.
  destruct (fetch env (twitter_request env code)) as [[[] [v|?]]|?];
    try discriminate.
  injection Hex as ->. destruct body as [tokens|]; cbn.
  - intros [->|(s & -> & Hs)].
    + now split.
    + rewrite (toISOString_beyond_range _ Hs). now split.
  - now split.
Qed.

Lemma X17_twitter_invalid_expiry_witness :
  (outcome More_input.twitter_no_expiry = Failed (Some "Invalid time value")
   /\ filter is_network (effects More_input.twitter_no_expiry) =
      [Fetch (twitter_request More_input.twitter_no_expiry "abc")])
  /\ outcome More_input.twitter_granted_null =
     Failed (Some (JS.cannot_read "null" "access_token")).
Proof.
  assert (Hd : dispatches More_input.twitter_no_expiry "twitter" "abc")
    by (repeat split; (reflexivity || discriminate)).
  assert (Hn : dispatches More_input.twitter_granted_null "twitter" "abc")
    by (repeat split; (reflexivity || discriminate)).
  split.
  - exact (X17_twitter_invalid_expiry More_input.twitter_no_expiry "abc"
             (JsonObject
                {| access_token := Some "at-1";
                   refresh_token := None;
                   expires_in := None;
                   error_description := None |})
             Hd eq_refl (or_introl eq_refl)).
  - exact (proj1 (X17_twitter_invalid_expiry More_input.twitter_granted_null
                    "abc" JsonNull Hn eq_refl)).
Defined.

(** *** X18: the console *)





(** *** X19: the query string *)

(** X19: of the query string the flow reads three values only: the first
    [platform], the first [code] and the first [error].  Two query strings
    that agree on these three give, in the same surroundings, the same log,
    timeline and outcome, whatever other names they carry, in whatever
    order, and whatever later values repeat the three names. *)
Theorem X19_first_platform_code_error_decide (env : Env)
    (ps ps' : list (string * string)) :
  JS.get "platform" ps = JS.get "platform" ps' ->
  JS.get "code" ps = JS.get "code" ps' ->
  JS.get "error" ps = JS.get "error" ps' ->
  handleAuth (with_searchParams ps env) = handleAuth (with_searchParams ps' env)
  /\ timeline (with_searchParams ps env) = timeline (with_searchParams ps' env)
  /\ outcome (with_searchParams ps env) = outcome (with_searchParams ps' env).
Proof.
  intros Hp Hc He.
  pose proof (handleAuth_try_params env ps ps' Hp Hc He) as Ht.
  assert (Hh : handleAuth (with_searchParams ps env) =
               handleAuth (with_searchParams ps' env))
    by (unfold handleAuth; now rewrite Ht).
  repeat split.
  - exact Hh.
  - unfold timeline. rewrite Hh. reflexivity.
  - unfold outcome. now rewrite Ht.
Qed.

Lemma X19_first_platform_code_error_decide_witness :
  timeline (with_searchParams More_input.plain Sample.linkedin_page) =
  timeline (with_searchParams More_input.cluttered Sample.linkedin_page).
Proof.
  apply (X19_first_platform_code_error_decide Sample.linkedin_page
           More_input.plain More_input.cluttered); reflexivity.
Defined.
